(** * Task tracker: the [Task] record and the [TaskManager] store of app.py

    A shallow embedding of the two classes of [src/app.py].

    - Python values are dynamically typed: a field of a [Task] holds
      whatever was assigned to it, so fields are [pyval]s.
    - [Task] objects are mutable and shared by reference: they live in a
      heap, and the store's [tasks] list holds references.
    - Every method that can raise returns a [res]; methods of the store run
      in a state-and-exception monad over the manager's attributes, the
      heap and the disk.
    - The wall clock is an input: a method that calls [datetime.now()]
      takes the reading as its argument [now].
    - The text codec of the [json] module is abstracted: a file holds either
      a parsed document or text that [json.load] rejects.  Floating-point
      JSON numbers and I/O failures of [open] are outside the model.
    - [print_task] is the list of lines it prints, and [main] runs on a
      process made of the store, the lines still to be typed, the texts
      written and the clock readings; [str.strip], [int], the text of a
      value in an f-string and [datetime.strptime] are parameters. *)

From stdpp Require Import base option list strings gmap.
From Stdlib Require Import ZArith Lia Ascii Sorted.
From Stdlib Require DecimalString.

Set Warnings "-register-all".

(** ** Python values and exceptions *)

Inductive pyval :=
| PNone
| PBool (b : bool)
| PInt (n : Z)
| PStr (s : string)
| PList (xs : list pyval)
| PDict (kvs : list (string * pyval)).

Inductive exn :=
| KeyError (key : string)
| TypeError
| ValueError
| AttributeError
| JSONDecodeError
| FileNotFoundError
| DanglingReference.

Inductive res (A : Type) :=
| Ok (a : A)
| Raise (e : exn).
Arguments Ok {A} a.
Arguments Raise {A} e.

Definition res_bind {A B} (r : res A) (k : A → res B) : res B :=
  match r with
  | Ok a => k a
  | Raise e => Raise e
  end.

Notation "'try!' x ':=' r 'in' k" := (res_bind r (λ x, k))
  (at level 10, x name, r at level 100, k at level 200).

Module Py.

(** [bool(v)]: the truth value used by [if], [and] and [not]. *)
Definition truthy (v : pyval) : bool :=
  match v with
  | PNone => false
  | PBool b => b
  | PInt n => negb (n =? 0)%Z
  | PStr s => negb (String.eqb s "")
  | PList xs => match xs with [] => false | _ => true end
  | PDict kvs => match kvs with [] => false | _ => true end
  end.

(** [v == n] for an [int] n: [bool] is a subclass of [int]. *)
Definition eq_int (v : pyval) (n : Z) : bool :=
  match v with
  | PInt m => (m =? n)%Z
  | PBool b => ((if b then 1 else 0) =? n)%Z
  | _ => false
  end.

(** [v == s] for a [str] s. *)
Definition eq_str (v : pyval) (s : string) : bool :=
  match v with
  | PStr s' => String.eqb s' s
  | _ => false
  end.

(** [v += 1], as [add_task] applies it to the counter. *)
Definition add_one (v : pyval) : res pyval :=
  match v with
  | PInt n => Ok (PInt (n + 1))
  | PBool b => Ok (PInt ((if b then 1 else 0) + 1))
  | _ => Raise TypeError
  end.

Fixpoint assoc (key : string) (kvs : list (string * pyval)) : option pyval :=
  match kvs with
  | [] => None
  | (k, v) :: kvs' => if String.eqb k key then Some v else assoc key kvs'
  end.

(** [data[key]] with a [str] key. *)
Definition subscript (data : pyval) (key : string) : res pyval :=
  match data with
  | PDict kvs =>
      match assoc key kvs with
      | Some v => Ok v
      | None => Raise (KeyError key)
      end
  | _ => Raise TypeError
  end.

(** [data.get(key, default)]: only a [dict] has the method. *)
Definition get (data : pyval) (key : string) (default : pyval) : res pyval :=
  match data with
  | PDict kvs => Ok (from_option (λ v, v) default (assoc key kvs))
  | _ => Raise AttributeError
  end.

Fixpoint chars (s : string) : list pyval :=
  match s with
  | EmptyString => []
  | String c s' => PStr (String c EmptyString) :: chars s'
  end.

(** The items a [for] loop draws from [v]. *)
Definition iter (v : pyval) : res (list pyval) :=
  match v with
  | PList xs => Ok xs
  | PDict kvs => Ok (map (λ kv, PStr kv.1) kvs)
  | PStr s => Ok (chars s)
  | _ => Raise TypeError
  end.

End Py.

(** ** [datetime] *)

Module Datetime.

Record t := mk {
  year : Z; month : Z; day : Z;
  hour : Z; minute : Z; second : Z; microsecond : Z
}.

Definition fields (d : t) : list Z :=
  [year d; month d; day d; hour d; minute d; second d; microsecond d].

Fixpoint lex_compare (xs ys : list Z) : comparison :=
  match xs, ys with
  | [], [] => Eq
  | [], _ :: _ => Lt
  | _ :: _, [] => Gt
  | x :: xs', y :: ys' =>
      match (x ?= y)%Z with
      | Eq => lex_compare xs' ys'
      | c => c
      end
  end.

(** [a > b] on naive datetimes. *)
Definition gt (a b : t) : bool :=
  match lex_compare (fields a) (fields b) with
  | Gt => true
  | _ => false
  end.

Definition midnight (y m d : Z) : t := mk y m d 0 0 0 0.

Definition digit (n : Z) : ascii := ascii_of_nat (48 + Z.to_nat (n mod 10)).

Definition dec2 (n : Z) : string :=
  String (digit (n / 10)) (String (digit n) EmptyString).

Definition dec4 (n : Z) : string :=
  String (digit (n / 1000)) (String (digit (n / 100)) (dec2 n)).

(** [d.strftime("%Y-%m-%d %H:%M:%S")] *)
Definition strftime (d : t) : string :=
  dec4 (year d) +:+ "-" +:+ dec2 (month d) +:+ "-" +:+ dec2 (day d) +:+ " "
  +:+ dec2 (hour d) +:+ ":" +:+ dec2 (minute d) +:+ ":" +:+ dec2 (second d).

(** A model of [datetime.strptime(s, "%Y-%m-%d")] on ASCII text; [None]
    stands for [ValueError].  The decimal digits of other scripts, which
    [\d] matches as well, are not modelled.  The directives match
    [\d\d\d\d], [1[0-2]|0[1-9]|[1-9]] and
    [3[0-1]|[1-2]\d|0[1-9]|[1-9]| [1-9]]; the whole text must be consumed
    and the date must exist in the proleptic Gregorian calendar. *)

Definition digit_val (c : ascii) : option Z :=
  let n := nat_of_ascii c in
  if (48 <=? n)%nat && (n <=? 57)%nat then Some (Z.of_nat (n - 48)) else None.

Definition is_dash (c : ascii) : bool := (nat_of_ascii c =? 45)%nat.
Definition is_space (c : ascii) : bool := (nat_of_ascii c =? 32)%nat.

Definition directive_Y (cs : list ascii) : option (Z * list ascii) :=
  match cs with
  | a :: b :: c :: d :: rest =>
      match digit_val a, digit_val b, digit_val c, digit_val d with
      | Some a, Some b, Some c, Some d =>
          Some (1000 * a + 100 * b + 10 * c + d, rest)%Z
      | _, _, _, _ => None
      end
  | _ => None
  end.

Definition two_digits (cs : list ascii) : option (Z * Z * list ascii) :=
  match cs with
  | a :: b :: rest =>
      match digit_val a, digit_val b with
      | Some a, Some b => Some (a, b, rest)
      | _, _ => None
      end
  | _ => None
  end.

Definition one_digit (cs : list ascii) : option (Z * list ascii) :=
  match cs with
  | a :: rest =>
      match digit_val a with
      | Some a => if (1 <=? a)%Z then Some (a, rest) else None
      | None => None
      end
  | _ => None
  end.

Definition directive_m (cs : list ascii) : option (Z * list ascii) :=
  match two_digits cs with
  | Some (1, b, rest)%Z =>
      if (b <=? 2)%Z then Some (10 + b, rest)%Z else one_digit cs
  | Some (0, b, rest)%Z =>
      if (1 <=? b)%Z then Some (b, rest) else one_digit cs
  | _ => one_digit cs
  end.

Definition directive_d (cs : list ascii) : option (Z * list ascii) :=
  match two_digits cs with
  | Some (3, b, rest)%Z =>
      if (b <=? 1)%Z then Some (30 + b, rest)%Z else one_digit cs
  | Some (0, b, rest)%Z =>
      if (1 <=? b)%Z then Some (b, rest) else one_digit cs
  | Some (a, b, rest) =>
      if (a <=? 2)%Z then Some (10 * a + b, rest)%Z else one_digit cs
  | None =>
      match one_digit cs with
      | Some r => Some r
      | None =>
          match cs with
          | sp :: cs' => if is_space sp then one_digit cs' else None
          | [] => None
          end
      end
  end.

Definition is_leap (y : Z) : bool :=
  ((y mod 4 =? 0) && (negb (y mod 100 =? 0) || (y mod 400 =? 0)))%Z.

Definition days_in_month (y m : Z) : Z :=
  (if m =? 2 then (if is_leap y then 29 else 28)
   else if (m =? 4) || (m =? 6) || (m =? 9) || (m =? 11) then 30
   else 31)%Z.

Definition expect_dash (cs : list ascii) : option (list ascii) :=
  match cs with
  | c :: rest => if is_dash c then Some rest else None
  | [] => None
  end.

Definition strptime_ymd (s : string) : option t :=
  '(y, cs) ← directive_Y (String.list_ascii_of_string s);
  cs ← expect_dash cs;
  '(m, cs) ← directive_m cs;
  cs ← expect_dash cs;
  '(d, cs) ← directive_d cs;
  match cs with
  | [] =>
      if ((1 <=? y) && (d <=? days_in_month y m))%Z
      then Some (midnight y m d) else None
  | _ :: _ => None
  end.

End Datetime.

(** ** class Task *)

Module Task.

Record t := mk {
  id : pyval;
  title : pyval;
  description : pyval;
  priority : pyval;
  category : pyval;
  completed : pyval;
  created_at : pyval;
  deadline : pyval;
  completed_at : pyval
}.

(** [Task(title, description, priority, category, deadline)] *)
Definition __init__ (now : Datetime.t)
    (title description priority category deadline : pyval) : t :=
  {| id := PNone;
     title := title;
     description := description;
     priority := priority;
     category := category;
     completed := PBool false;
     created_at := PStr (Datetime.strftime now);
     deadline := deadline;
     completed_at := PNone |}.

(** [Task(title)], with the defaults of the signature. *)
Definition create (now : Datetime.t) (title : pyval) : t :=
  __init__ now title (PStr "") (PStr "medium") (PStr "general") PNone.

Definition to_dict (self : t) : pyval :=
  PDict [("id", id self);
         ("title", title self);
         ("description", description self);
         ("priority", priority self);
         ("category", category self);
         ("completed", completed self);
         ("created_at", created_at self);
         ("deadline", deadline self);
         ("completed_at", completed_at self)].

Definition from_dict (now : Datetime.t) (data : pyval) : res t :=
  try! a_title := Py.subscript data "title" in
  try! a_description := Py.subscript data "description" in
  try! a_priority := Py.subscript data "priority" in
  try! a_category := Py.subscript data "category" in
  try! a_deadline := Py.subscript data "deadline" in
  let task := __init__ now a_title a_description a_priority a_category a_deadline in
  try! v_id := Py.subscript data "id" in
  try! v_completed := Py.subscript data "completed" in
  try! v_created_at := Py.subscript data "created_at" in
  try! v_completed_at := Py.subscript data "completed_at" in
  Ok {| id := v_id;
        title := title task;
        description := description task;
        priority := priority task;
        category := category task;
        completed := v_completed;
        created_at := v_created_at;
        deadline := deadline task;
        completed_at := v_completed_at |}.

Definition mark_complete (now : Datetime.t) (self : t) : t :=
  {| id := id self;
     title := title self;
     description := description self;
     priority := priority self;
     category := category self;
     completed := PBool true;
     created_at := created_at self;
     deadline := deadline self;
     completed_at := PStr (Datetime.strftime now) |}.

Section Overdue.

(** [strptime s] stands for [datetime.strptime(s, "%Y-%m-%d")], with
    [None] for its [ValueError]. *)
Variable strptime : string → option Datetime.t.

Definition is_overdue (now : Datetime.t) (self : t) : res bool :=
  if Py.truthy (deadline self) && negb (Py.truthy (completed self)) then
    match deadline self with
    | PStr s =>
        match strptime s with
        | Some deadline_date => Ok (Datetime.gt now deadline_date)
        | None => Raise ValueError
        end
    | _ => Raise TypeError
    end
  else Ok false.

End Overdue.

(** [self.id = v], the assignment [add_task] makes. *)
Definition set_id (v : pyval) (self : t) : t :=
  {| id := v;
     title := title self;
     description := description self;
     priority := priority self;
     category := category self;
     completed := completed self;
     created_at := created_at self;
     deadline := deadline self;
     completed_at := completed_at self |}.

(** The life of a task object that only its own methods touch. *)
Inductive lifecycle : t → Prop :=
| constructed now a_title a_description a_priority a_category a_deadline :
    lifecycle (__init__ now a_title a_description a_priority a_category a_deadline)
| completed_again now self :
    lifecycle self → lifecycle (mark_complete now self).

End Task.

(** ** class TaskManager *)

(** What a file holds, up to the text codec of [json]: text that
    [json.load] rejects, or the document it parses to. *)
Inductive file_content :=
| Unparsable
| Document (data : pyval).

Module TaskManager.

(** A reference to a [Task] object. *)
Definition loc := nat.

(** The attributes of the manager object. *)
Record t := mk {
  filename : string;
  tasks : list loc;
  next_id : pyval
}.

Record State := mkState {
  self : t;
  heap : list Task.t;
  disk : gmap string file_content
}.

Definition M (A : Type) : Type := State → res A * State.

Definition ret {A} (a : A) : M A := λ st, (Ok a, st).

Definition raise {A} (e : exn) : M A := λ st, (Raise e, st).

Definition bind {A B} (m : M A) (k : A → M B) : M B :=
  λ st,
    match m st with
    | (Ok a, st') => k a st'
    | (Raise e, st') => (Raise e, st')
    end.

Notation "'let!' x ':=' m 'in' k" := (bind m (λ x, k))
  (at level 10, x name, m at level 100, k at level 200).
Notation "'do!' m 'in' k" := (bind m (λ _, k))
  (at level 10, m at level 100, k at level 200).

Definition lift {A} (r : res A) : M A := λ st, (r, st).

Definition read_self : M t := λ st, (Ok (self st), st).

Definition write_self (me : t) : M unit :=
  λ st, (Ok tt, mkState me (heap st) (disk st)).

(** Reading and writing the object a reference designates.  A reference
    always designates a live object in Python: [DanglingReference] is
    there to make the functions total. *)
Definition deref (l : loc) : M Task.t :=
  λ st,
    match heap st !! l with
    | Some task => (Ok task, st)
    | None => (Raise DanglingReference, st)
    end.

Definition store (l : loc) (task : Task.t) : M unit :=
  λ st,
    match heap st !! l with
    | Some _ => (Ok tt, mkState (self st) (<[l := task]> (heap st)) (disk st))
    | None => (Raise DanglingReference, st)
    end.

Definition alloc (task : Task.t) : M loc :=
  λ st, (Ok (length (heap st)), mkState (self st) (heap st ++ [task]) (disk st)).

(** [os.path.exists(path)] *)
Definition path_exists (path : string) : M bool :=
  λ st, (Ok (bool_decide (is_Some (disk st !! path))), st).

(** [open(path, 'r')] followed by [json.load(f)]. *)
Definition json_load (path : string) : M pyval :=
  λ st,
    match disk st !! path with
    | Some (Document data) => (Ok data, st)
    | Some Unparsable => (Raise JSONDecodeError, st)
    | None => (Raise FileNotFoundError, st)
    end.

(** [json.dump(data, f)] on the file at [path], opened with ['w']. *)
Definition json_dump (path : string) (data : pyval) : M unit :=
  λ st, (Ok tt, mkState (self st) (heap st) (<[path := Document data]> (disk st))).

Fixpoint for_each {A B} (f : A → M B) (xs : list A) : M (list B) :=
  match xs with
  | [] => ret []
  | x :: xs' =>
      let! y := f x in
      let! ys := for_each f xs' in
      ret (y :: ys)
  end.

(** [[t for t in ts if p(t)]] *)
Fixpoint select (p : Task.t → res bool) (ts : list loc) : M (list loc) :=
  match ts with
  | [] => ret []
  | l :: ts' =>
      let! task := deref l in
      let! keep := lift (p task) in
      let! rest := select p ts' in
      ret (if keep then l :: rest else rest)
  end.

(** [xs.remove(x)]: the first item equal to [x] goes; [Task] defines no
    [__eq__], so equality of tasks is identity of objects. *)
Fixpoint remove_first (x : loc) (xs : list loc) : option (list loc) :=
  match xs with
  | [] => None
  | y :: ys =>
      if decide (y = x) then Some ys
      else cons y <$> remove_first x ys
  end.

Definition save_tasks : M unit :=
  let! me := read_self in
  let! dicts := for_each (λ l, let! task := deref l in ret (Task.to_dict task))
                         (tasks me) in
  let data := PDict [("next_id", next_id me); ("tasks", PList dicts)] in
  json_dump (filename me) data.

Definition load_tasks (now : Datetime.t) : M unit :=
  let! me := read_self in
  let! found := path_exists (filename me) in
  if found then
    let! data := json_load (filename me) in
    let! v_next_id := lift (Py.get data "next_id" (PInt 1)) in
    do! write_self (mk (filename me) (tasks me) v_next_id) in
    let! v_tasks := lift (Py.get data "tasks" (PList [])) in
    let! items := lift (Py.iter v_tasks) in
    let! objs := for_each (λ d, let! task := lift (Task.from_dict now d) in
                                alloc task) items in
    let! me := read_self in
    write_self (mk (filename me) objs (next_id me))
  else ret tt.

Definition __init__ (now : Datetime.t) (a_filename : string) : M unit :=
  do! write_self (mk a_filename [] (PInt 1)) in
  load_tasks now.

Definition add_task (task : loc) : M pyval :=
  let! me := read_self in
  let! obj := deref task in
  do! store task (Task.set_id (next_id me) obj) in
  do! write_self (mk (filename me) (tasks me ++ [task]) (next_id me)) in
  let! me := read_self in
  let! n := lift (Py.add_one (next_id me)) in
  do! write_self (mk (filename me) (tasks me) n) in
  do! save_tasks in
  let! obj := deref task in
  ret (Task.id obj).

Fixpoint get_task_from (task_id : Z) (ts : list loc) : M (option loc) :=
  match ts with
  | [] => ret None
  | l :: ts' =>
      let! task := deref l in
      if Py.eq_int (Task.id task) task_id then ret (Some l)
      else get_task_from task_id ts'
  end.

Definition get_task (task_id : Z) : M (option loc) :=
  let! me := read_self in
  get_task_from task_id (tasks me).

Definition delete_task (task_id : Z) : M bool :=
  let! task := get_task task_id in
  match task with
  | Some l =>
      let! me := read_self in
      match remove_first l (tasks me) with
      | Some ts =>
          do! write_self (mk (filename me) ts (next_id me)) in
          do! save_tasks in
          ret true
      | None => raise ValueError
      end
  | None => ret false
  end.

Definition complete_task (now : Datetime.t) (task_id : Z) : M bool :=
  let! task := get_task task_id in
  match task with
  | Some l =>
      let! obj := deref l in
      do! store l (Task.mark_complete now obj) in
      do! save_tasks in
      ret true
  | None => ret false
  end.

Definition get_tasks_by_category (a_category : string) : M (list loc) :=
  let! me := read_self in
  select (λ task, Ok (Py.eq_str (Task.category task) a_category)) (tasks me).

Definition get_tasks_by_priority (a_priority : string) : M (list loc) :=
  let! me := read_self in
  select (λ task, Ok (Py.eq_str (Task.priority task) a_priority)) (tasks me).

Definition get_pending_tasks : M (list loc) :=
  let! me := read_self in
  select (λ task, Ok (negb (Py.truthy (Task.completed task)))) (tasks me).

Definition get_completed_tasks : M (list loc) :=
  let! me := read_self in
  select (λ task, Ok (Py.truthy (Task.completed task))) (tasks me).

Definition get_overdue_tasks (strptime : string → option Datetime.t)
    (now : Datetime.t) : M (list loc) :=
  let! me := read_self in
  select (Task.is_overdue strptime now) (tasks me).

(** The contents of the store: the task objects in list order. *)
Definition contents (st : State) : list (option Task.t) :=
  map (λ l, heap st !! l) (tasks (self st)).

Definition objects (h : list Task.t) (ts : list loc) : list Task.t :=
  omap (λ l, h !! l) ts.

(** The document [save_tasks] builds from the attributes [me]. *)
Definition snapshot (me : t) (h : list Task.t) : pyval :=
  PDict [("next_id", next_id me);
         ("tasks", PList (map Task.to_dict (objects h (tasks me))))].

(** Every reference the store holds designates an object. *)
Definition live (st : State) : Prop :=
  Forall (λ l, l < length (heap st)) (tasks (self st)).

(** The object at [l] satisfies [P]. *)
Definition designates (st : State) (P : Task.t → Prop) (l : loc) : Prop :=
  ∃ obj, heap st !! l = Some obj ∧ P obj.

(** [r] is [ts] restricted to the references that satisfy [P], in the
    order and with the repetitions of [ts]. *)
Inductive exactly_those (P : loc → Prop) : list loc → list loc → Prop :=
| those_nil : exactly_those P [] []
| those_keep l ts r :
    P l → exactly_those P ts r → exactly_those P (l :: ts) (l :: r)
| those_skip l ts r :
    ¬ P l → exactly_those P ts r → exactly_those P (l :: ts) r.

(** [l] is the first reference in [ts] whose object has the ID: the
    others before it do not, and it stands at index [i]. *)
Definition first_with_id (h : list Task.t) (task_id : Z) (ts : list loc)
    (i : nat) (l : loc) : Prop :=
  ts !! i = Some l
  ∧ (∃ obj, h !! l = Some obj ∧ Py.eq_int (Task.id obj) task_id = true)
  ∧ ∀ j l', j < i → ts !! j = Some l' →
      ∃ obj', h !! l' = Some obj' ∧ Py.eq_int (Task.id obj') task_id = false.

(** No object of [ts] has the ID. *)
Definition none_with_id (h : list Task.t) (task_id : Z) (ts : list loc) : Prop :=
  Forall (λ l, ∃ obj, h !! l = Some obj ∧ Py.eq_int (Task.id obj) task_id = false) ts.

(** Calls a client makes on one store; [New] builds a task object the
    client may pass to [Add] later. *)
Inductive call :=
| New (now : Datetime.t) (a_title a_description a_priority a_category a_deadline : pyval)
| Add (task : loc)
| Delete (task_id : Z)
| Complete (now : Datetime.t) (task_id : Z).

(** One call; the list holds the ID when the call is an [Add] that
    returned. *)
Definition perform (c : call) (st : State) : list pyval * State :=
  match c with
  | New now a b c d e =>
      ([], (alloc (Task.__init__ now a b c d e) st).2)
  | Add task =>
      match add_task task st with
      | (Ok v, st') => ([v], st')
      | (Raise _, st') => ([], st')
      end
  | Delete task_id => ([], (delete_task task_id st).2)
  | Complete now task_id => ([], (complete_task now task_id st).2)
  end.

(** The IDs the [Add] calls of a session return, in call order. *)
Fixpoint session (cs : list call) (st : State) : list pyval * State :=
  match cs with
  | [] => ([], st)
  | c :: cs' =>
      let '(ids, st') := perform c st in
      let '(ids', st'') := session cs' st' in
      (ids ++ ids', st'')
  end.

(** The [Add] calls of [cs] pass live references, on a heap that holds
    [n] objects when the calls start. *)
Fixpoint adds_live (cs : list call) (n : nat) : bool :=
  match cs with
  | [] => true
  | New _ _ _ _ _ _ :: cs' => adds_live cs' (S n)
  | Add task :: cs' => (task <? n) && adds_live cs' n
  | _ :: cs' => adds_live cs' n
  end.

Fixpoint count_adds (cs : list call) : nat :=
  match cs with
  | [] => 0
  | Add _ :: cs' => S (count_adds cs')
  | _ :: cs' => count_adds cs'
  end.

End TaskManager.

(** ** The persisted format, as the specification words it *)

Module Format.

Definition required_keys : list string :=
  ["id"; "title"; "description"; "priority"; "category"; "completed";
   "created_at"; "deadline"; "completed_at"].

Definition is_int (v : pyval) : bool :=
  match v with PInt _ => true | _ => false end.
Definition is_str (v : pyval) : bool :=
  match v with PStr _ => true | _ => false end.
Definition is_bool (v : pyval) : bool :=
  match v with PBool _ => true | _ => false end.
Definition is_opt_str (v : pyval) : bool :=
  match v with PStr _ | PNone => true | _ => false end.

Definition field_ok (kvs : list (string * pyval)) (key : string)
    (ty : pyval → bool) : bool :=
  from_option ty false (Py.assoc key kvs).

(** A task record with the nine fields of the format, each of its type. *)
Definition task_record (v : pyval) : bool :=
  match v with
  | PDict kvs =>
      field_ok kvs "id" is_int && field_ok kvs "title" is_str
      && field_ok kvs "description" is_str && field_ok kvs "priority" is_str
      && field_ok kvs "category" is_str && field_ok kvs "completed" is_bool
      && field_ok kvs "created_at" is_str && field_ok kvs "deadline" is_opt_str
      && field_ok kvs "completed_at" is_opt_str
  | _ => false
  end.

(** The expected structure: an object with an integer [next_id] and an
    array [tasks] of task records. *)
Definition expected_structure (c : file_content) : bool :=
  match c with
  | Document (PDict kvs) =>
      field_ok kvs "next_id" is_int
      && match Py.assoc "tasks" kvs with
         | Some (PList recs) => forallb task_record recs
         | _ => false
         end
  | _ => false
  end.

(** A record holds every required field. *)
Definition has_required_fields (v : pyval) : bool :=
  match v with
  | PDict kvs => forallb (λ k, bool_decide (is_Some (Py.assoc k kvs))) required_keys
  | _ => false
  end.

End Format.

Import TaskManager.

(** The loop of [load_tasks] as a function of the records alone. *)
Fixpoint decode (now : Datetime.t) (items : list pyval) : res (list Task.t) :=
  match items with
  | [] => Ok []
  | d :: items' =>
      try! task := Task.from_dict now d in
      try! rest := decode now items' in
      Ok (task :: rest)
  end.

(** ** Sample data *)

Definition sample_now : Datetime.t := Datetime.mk 2024 3 15 12 0 0 0.

Definition sample_task (n : Z) (a_title : string) (a_category a_priority : string)
    (done : bool) : Task.t :=
  Task.mk (PInt n) (PStr a_title) (PStr "") (PStr a_priority) (PStr a_category)
    (PBool done) (PStr "2024-03-01 09:30:00") PNone
    (if done then PStr "2024-03-02 08:00:00" else PNone).

Definition sample_completed_twice : Task.t :=
  Task.mark_complete (Datetime.mk 2024 3 3 8 0 0 0)
    (Task.mark_complete (Datetime.mk 2024 3 2 8 0 0 0)
       (Task.create (Datetime.mk 2024 3 1 9 30 0 0) (PStr "Buy milk"))).

Definition sample_store : State :=
  mkState (mk "tasks.json" [0; 1; 2] (PInt 4))
    [sample_task 1 "Buy milk" "home" "high" false;
     sample_task 2 "File taxes" "work" "high" true;
     sample_task 3 "Call Ana" "work" "low" false]
    ∅.

Definition sample_session : list call :=
  [New sample_now (PStr "Water plants") (PStr "") (PStr "low") (PStr "home") PNone;
   Add 3;
   Delete 1;
   New sample_now (PStr "Pay rent") (PStr "") (PStr "high") (PStr "home")
     (PStr "2024-04-01");
   Add 4;
   Delete 4;
   Complete sample_now 5;
   Add 0].

(** ** Invariants of the store *)

(** The file on disk holds the document of the store in memory. *)
Definition in_sync (st : State) : Prop :=
  disk st !! filename (self st) = Some (Document (snapshot (self st) (heap st))).

(** The ID the object at [l] carries. *)
Definition id_at (h : list Task.t) (l : loc) : option pyval :=
  Task.id <$> h !! l.

(** Every listed task carries an integer ID below [n]. *)
Definition ids_below (st : State) (n : Z) : Prop :=
  Forall (λ l, ∃ obj k, heap st !! l = Some obj ∧ Task.id obj = PInt k ∧ (k < n)%Z)
    (tasks (self st)).

(** The counter is an integer above every listed ID, and no two entries
    of the list carry the same ID. *)
Definition well_formed (st : State) : Prop :=
  ∃ n, next_id (self st) = PInt n
       ∧ ids_below st n
       ∧ NoDup (map (id_at (heap st)) (tasks (self st))).

(** A manager constructed from the disk of [st], in any process, holds
    the tasks of [st] in the same order and the counter of [st]. *)
Definition durable (st : State) : Prop :=
  ∀ now me0 h0,
    ∃ st2, __init__ now (filename (self st)) (mkState me0 h0 (disk st)) = (Ok tt, st2)
           ∧ contents st2 = contents st
           ∧ next_id (self st2) = next_id (self st).

Definition fresh_store : State :=
  mkState (mk "tasks.json" [] (PInt 1)) [] ∅.

Definition fresh_session : list call :=
  [New sample_now (PStr "Water plants") (PStr "") (PStr "low") (PStr "home") PNone;
   Add 0;
   New sample_now (PStr "Pay rent") (PStr "") (PStr "high") (PStr "home")
     (PStr "next month");
   Add 1;
   Complete sample_now 2;
   Delete 1;
   Delete 7].

(** The keys in the order [from_dict] reads them. *)
Definition access_order : list string :=
  ["title"; "description"; "priority"; "category"; "deadline"; "id";
   "completed"; "created_at"; "completed_at"].

Definition lacks (kvs : list (string * pyval)) (key : string) : bool :=
  negb (bool_decide (is_Some (Py.assoc key kvs))).

(** [task] is pending, its deadline text parses, and [now] is later than
    the parsed deadline. *)
Definition overdue_at (strptime : string → option Datetime.t) (now : Datetime.t)
    (task : Task.t) : Prop :=
  ∃ s d, Task.deadline task = PStr s ∧ s ≠ ""
         ∧ Py.truthy (Task.completed task) = false
         ∧ strptime s = Some d ∧ Datetime.gt now d = true.

(** A store whose tasks carry deadlines: one overdue on 2024-03-15, one
    not yet due, one completed, one with a deadline that is no date. *)
Definition dated_task (n : Z) (a_deadline : pyval) (done : bool) : Task.t :=
  Task.mk (PInt n) (PStr "Pay rent") (PStr "") (PStr "high") (PStr "home")
    (PBool done) (PStr "2024-03-01 09:30:00") a_deadline
    (if done then PStr "2024-03-02 08:00:00" else PNone).

Definition dated_store : State :=
  mkState (mk "tasks.json" [0; 1; 2] (PInt 4))
    [dated_task 1 (PStr "2024-03-10") false;
     dated_task 2 (PStr "2024-03-20") false;
     dated_task 3 (PStr "next week") true;
     dated_task 9 (PStr "next week") false]
    ∅.

(** [v == b] for a [bool] b: [False] and [True] are the integers 0 and 1. *)
Definition equals_bool (v : pyval) (b : bool) : bool :=
  Py.eq_int v (if b then 1 else 0).

(** A task file from another hand: [completed] is [null] in the first
    record and the text ["false"] in the second. *)
Definition untyped_record (n : Z) (a_title : string) (a_completed : pyval) : pyval :=
  PDict [("id", PInt n); ("title", PStr a_title); ("description", PStr "");
         ("priority", PStr "high"); ("category", PStr "home");
         ("completed", a_completed); ("created_at", PStr "2024-03-01 09:30:00");
         ("deadline", PNone); ("completed_at", PNone)].

Definition untyped_document : pyval :=
  PDict [("next_id", PInt 3);
         ("tasks", PList [untyped_record 1 "Buy milk" PNone;
                          untyped_record 2 "File taxes" (PStr "false")])].

(** The store [TaskManager()] builds from that file. *)
Definition untyped_store : State :=
  (__init__ sample_now "tasks.json"
     (mkState (mk "" [] PNone) []
        (<["tasks.json" := Document untyped_document]> ∅))).2.

Ltac not_in_list :=
  let H := fresh in
  intros H; repeat (apply elem_of_cons in H as [H|H]; [discriminate|]);
  by apply elem_of_nil in H.

(** ** print_task *)

Module Display.

(** Lists and dicts cannot be dictionary keys. *)
Definition hashable (v : pyval) : bool :=
  match v with
  | PList _ | PDict _ => false
  | _ => true
  end.

(** [d.get(key, default)] on a dict whose keys are strings. *)
Definition dict_get (d : list (string * string)) (key : pyval) (default : string)
    : res string :=
  match key with
  | PList _ | PDict _ => Raise TypeError
  | PStr s =>
      Ok (from_option (λ v, v) default
            (snd <$> List.find (λ kv, String.eqb kv.1 s) d))
  | _ => Ok default
  end.

Definition priority_symbols : list (string * string) :=
  [("low", "↓"); ("medium", "→"); ("high", "↑")].

Section Rendering.

(** [str_ v] stands for the text an f-string puts for [{v}], and
    [strptime] for [datetime.strptime(_, "%Y-%m-%d")]. *)
Variable str_ : pyval → string.
Variable strptime : string → option Datetime.t.

(** The lines [print_task(task, detailed)] prints; an exception leaves
    before the first [print]. *)
Definition print_task (now : Datetime.t) (task : Task.t) (detailed : bool)
    : res (list string) :=
  let status := if Py.truthy (Task.completed task) then "✓" else "○" in
  try! priority := dict_get priority_symbols (Task.priority task) "→" in
  try! late := Task.is_overdue strptime now task in
  let overdue := if late then " [OVERDUE]" else "" in
  let deadline :=
    if Py.truthy (Task.deadline task)
    then " | Due: " +:+ str_ (Task.deadline task) else "" in
  let header :=
    status +:+ " [" +:+ str_ (Task.id task) +:+ "] " +:+ priority +:+ " "
    +:+ str_ (Task.title task) +:+ deadline +:+ overdue in
  Ok (header ::
      if detailed then
        ["   Category: " +:+ str_ (Task.category task);
         "   Priority: " +:+ str_ (Task.priority task);
         "   Created: " +:+ str_ (Task.created_at task)]
        ++ (if Py.truthy (Task.description task)
            then ["   Description: " +:+ str_ (Task.description task)] else [])
        ++ (if Py.truthy (Task.completed task)
            then ["   Completed: " +:+ str_ (Task.completed_at task)] else [])
        ++ [""]
      else []).

End Rendering.

(** [str(v)] for the scalar values; the text of a list or a dict is not
    modelled. *)
Definition digits_of (n : N) : string :=
  DecimalString.NilZero.string_of_uint (N.to_uint n).

Definition str_scalar (v : pyval) : string :=
  match v with
  | PNone => "None"
  | PBool true => "True"
  | PBool false => "False"
  | PInt n => if (n <? 0)%Z then "-" +:+ digits_of (Z.abs_N n) else digits_of (Z.abs_N n)
  | PStr s => s
  | _ => ""
  end.

End Display.

(** ** main *)

Module Menu.

(** How a piece of the program ends: with a value, with an exception of
    the classes above, with the [EOFError] of [input()], or, for the loop,
    with its fuel spent. *)
Inductive outcome (A : Type) :=
| Returned (a : A)
| Raised (e : exn)
| EOFError
| OutOfFuel.
Arguments Returned {A} a.
Arguments Raised {A} e.
Arguments EOFError {A}.
Arguments OutOfFuel {A}.

(** The process: the state, the lines still to be typed, the texts
    written so far (oldest first) and the number of clock readings. *)
Record World := mkWorld {
  state : State;
  stdin : list string;
  stdout : list string;
  ticks : nat
}.

Definition IO (A : Type) : Type := World → outcome A * World.

Definition pure {A} (a : A) : IO A := λ w, (Returned a, w).

Definition throw {A} (e : exn) : IO A := λ w, (Raised e, w).

Definition and_then {A B} (m : IO A) (k : A → IO B) : IO B :=
  λ w,
    match m w with
    | (Returned a, w') => k a w'
    | (Raised e, w') => (Raised e, w')
    | (EOFError, w') => (EOFError, w')
    | (OutOfFuel, w') => (OutOfFuel, w')
    end.

Notation "'io!' x ':=' m 'in' k" := (and_then m (λ x, k))
  (at level 10, x name, m at level 100, k at level 200).
Notation "'io;' m 'in' k" := (and_then m (λ _, k))
  (at level 10, m at level 100, k at level 200).

(** A method of the manager, run on the state of the process. *)
Definition call {A} (m : M A) : IO A :=
  λ w,
    match m (state w) with
    | (Ok a, st') => (Returned a, mkWorld st' (stdin w) (stdout w) (ticks w))
    | (Raise e, st') => (Raised e, mkWorld st' (stdin w) (stdout w) (ticks w))
    end.

Definition newline : string := String (ascii_of_nat 10) EmptyString.

(** [print(s)] *)
Definition print (s : string) : IO unit :=
  λ w, (Returned tt,
        mkWorld (state w) (stdin w) (stdout w ++ [s +:+ newline]) (ticks w)).

(** [print(s)] for each line in turn. *)
Fixpoint print_lines (lines : list string) : IO unit :=
  match lines with
  | [] => pure tt
  | s :: lines' => io; print s in print_lines lines'
  end.

(** [input(prompt)]: the prompt is written, then a line is read. *)
Definition input (prompt : string) : IO string :=
  λ w,
    match stdin w with
    | [] => (EOFError, mkWorld (state w) [] (stdout w ++ [prompt]) (ticks w))
    | line :: rest =>
        (Returned line, mkWorld (state w) rest (stdout w ++ [prompt]) (ticks w))
    end.

Fixpoint for_each_io {A} (f : A → IO unit) (xs : list A) : IO unit :=
  match xs with
  | [] => pure tt
  | x :: xs' => io; f x in for_each_io f xs'
  end.

(** The arguments of the call [cls(...)] in [from_dict]: the five
    subscripts are evaluated before the constructor runs and reads the
    clock. *)
Definition constructor_args (data : pyval) : res unit :=
  try! a_title := Py.subscript data "title" in
  try! a_description := Py.subscript data "description" in
  try! a_priority := Py.subscript data "priority" in
  try! a_category := Py.subscript data "category" in
  try! a_deadline := Py.subscript data "deadline" in
  Ok tt.

(** The readings of the clock in the loop of [load_tasks]: one for each
    record whose [Task] is constructed, up to the first record on which
    [from_dict] raises. *)
Fixpoint constructions (now : Datetime.t) (items : list pyval) : nat :=
  match items with
  | [] => 0
  | d :: items' =>
      match constructor_args d with
      | Ok _ =>
          S (match Task.from_dict now d with
             | Ok _ => constructions now items'
             | Raise _ => 0
             end)
      | Raise _ => 0
      end
  end.

(** The readings [load_tasks] takes on the file at [path]. *)
Definition readings_of_load (now : Datetime.t) (path : string) (st : State) : nat :=
  match disk st !! path with
  | Some (Document data) =>
      match (try! v_tasks := Py.get data "tasks" (PList []) in Py.iter v_tasks) with
      | Ok items => constructions now items
      | Raise _ => 0
      end
  | _ => 0
  end.

Section Environment.

(** [clock k] is the [k]-th reading of [datetime.now()], [strip s] is
    [s.strip()], [int_ s] is [int(s)] with [None] for its [ValueError],
    [str_ v] the text an f-string puts for [{v}], and [strptime s] is
    [datetime.strptime(s, "%Y-%m-%d")]. *)
Variable clock : nat → Datetime.t.
Variable strip : string → string.
Variable int_ : string → option Z.
Variable str_ : pyval → string.
Variable strptime : string → option Datetime.t.

Definition datetime_now : IO Datetime.t :=
  λ w, (Returned (clock (ticks w)),
        mkWorld (state w) (stdin w) (stdout w) (S (ticks w))).

(** [task.is_overdue()] comes to its [datetime.now()]: the task has a
    deadline, is not completed, and the deadline parses. *)
Definition reads_clock (task : Task.t) : bool :=
  Py.truthy (Task.deadline task) && negb (Py.truthy (Task.completed task))
  && match Task.deadline task with
     | PStr s => bool_decide (is_Some (strptime s))
     | _ => false
     end.

(** The reading of a call that comes to [datetime.now()] when [taken]
    holds; a call that does not come to it takes no reading and makes no
    use of the value. *)
Definition reading_if (taken : bool) : IO Datetime.t :=
  if taken then datetime_now
  else λ w, (Returned (clock (ticks w)), w).

(** [print_task(task, detailed)] on the object a reference designates;
    [is_overdue] is called once the symbol of the priority is found. *)
Definition show_task (detailed : bool) (task : loc) : IO unit :=
  io! obj := call (deref task) in
  io! now := reading_if (Display.hashable (Task.priority obj) && reads_clock obj) in
  match Display.print_task str_ strptime now obj detailed with
  | Ok lines => print_lines lines
  | Raise e => throw e
  end.

(** [if tasks: for task in tasks: print_task(task)  else: print(message)] *)
Definition show_all (ts : list loc) (message : string) : IO unit :=
  match ts with
  | [] => print message
  | _ :: _ => for_each_io (show_task false) ts
  end.

(** [manager.get_overdue_tasks()]: each [is_overdue] that comes to the
    clock takes its own reading. *)
Fixpoint overdue_scan (ts : list loc) : IO (list loc) :=
  match ts with
  | [] => pure []
  | l :: ts' =>
      io! obj := call (deref l) in
      io! now := reading_if (reads_clock obj) in
      match Task.is_overdue strptime now obj with
      | Ok late =>
          io! rest := overdue_scan ts' in
          pure (if late then l :: rest else rest)
      | Raise e => throw e
      end
  end.

(** [s or default] *)
Definition or_default (s default : string) : string :=
  if String.eqb s "" then default else s.

(** [s or None] *)
Definition or_none (s : string) : pyval :=
  if String.eqb s "" then PNone else PStr s.

Definition menu : list string :=
  [newline +:+ "=== Task Manager ===";
   "1. Add task"; "2. List all tasks"; "3. List pending tasks";
   "4. List completed tasks"; "5. List overdue tasks"; "6. Complete task";
   "7. Delete task"; "8. View task details"; "9. Exit"].

(** The [if]/[elif] chain on the choice; [false] stands for [break]. *)
Definition dispatch (choice : string) : IO bool :=
  if String.eqb choice "1" then
    io! title := input "Title: " in
    io! description := input "Description (optional): " in
    io! priority := input "Priority (low/medium/high) [medium]: " in
    io! category := input "Category [general]: " in
    io! deadline := input "Deadline (YYYY-MM-DD) [optional]: " in
    io! now := datetime_now in
    io! task := call (alloc (Task.__init__ now
                               (PStr (strip title))
                               (PStr (strip description))
                               (PStr (or_default (strip priority) "medium"))
                               (PStr (or_default (strip category) "general"))
                               (or_none (strip deadline)))) in
    io! task_id := call (add_task task) in
    io; print ("Task added with ID: " +:+ str_ task_id) in
    pure true
  else if String.eqb choice "2" then
    io! me := call read_self in
    io; show_all (tasks me) "No tasks found." in
    pure true
  else if String.eqb choice "3" then
    io! ts := call get_pending_tasks in
    io; show_all ts "No pending tasks." in
    pure true
  else if String.eqb choice "4" then
    io! ts := call get_completed_tasks in
    io; show_all ts "No completed tasks." in
    pure true
  else if String.eqb choice "5" then
    io! me := call read_self in
    io! ts := overdue_scan (tasks me) in
    io; show_all ts "No overdue tasks." in
    pure true
  else if String.eqb choice "6" then
    io! line := input "Enter task ID to complete: " in
    match int_ line with
    | Some task_id =>
        io! task := call (get_task task_id) in
        io! now := reading_if (bool_decide (is_Some task)) in
        io! found := call (complete_task now task_id) in
        io; print (if found then "Task marked as completed!" else "Task not found.") in
        pure true
    | None => throw ValueError
    end
  else if String.eqb choice "7" then
    io! line := input "Enter task ID to delete: " in
    match int_ line with
    | Some task_id =>
        io! found := call (delete_task task_id) in
        io; print (if found then "Task deleted!" else "Task not found.") in
        pure true
    | None => throw ValueError
    end
  else if String.eqb choice "8" then
    io! line := input "Enter task ID: " in
    match int_ line with
    | Some task_id =>
        io! task := call (get_task task_id) in
        io; match task with
            | Some l => show_task true l
            | None => print "Task not found."
            end in
        pure true
    | None => throw ValueError
    end
  else if String.eqb choice "9" then
    io; print "Goodbye!" in
    pure false
  else
    io; print "Invalid choice. Please try again." in
    pure true.

(** One turn of the loop. *)
Definition iteration : IO bool :=
  io; print_lines menu in
  io! choice := input (newline +:+ "Enter choice: ") in
  dispatch (strip choice).

(** [while True: ...] with [fuel] turns at most. *)
Fixpoint main_loop (fuel : nat) : IO unit :=
  match fuel with
  | 0 => λ w, (OutOfFuel, w)
  | S fuel' =>
      io! continue := iteration in
      if continue then main_loop fuel' else pure tt
  end.

(** [manager = TaskManager()]: the constructor of [Task] reads the clock
    for each record it is called on, and [from_dict] overwrites what it
    read, so the readings show in their number only. *)
Definition construct_manager : IO unit :=
  λ w,
    let now := clock (ticks w) in
    call (TaskManager.__init__ now "tasks.json")
      (mkWorld (state w) (stdin w) (stdout w)
         (ticks w + readings_of_load now "tasks.json" (state w))).

(** [main()]; a turn reads at least one line, so one turn more than
    there are lines is fuel enough. *)
Definition main : IO unit :=
  io; construct_manager in
  λ w, main_loop (S (length (stdin w))) w.

End Environment.

(** [m] leaves the state of the process as it found it, however it ends. *)
Definition state_kept {A} (m : IO A) : Prop :=
  ∀ w, state (m w).2 = state w.

(** [m] has no loop of its own to run out of fuel, and what it leaves on
    the input is an end part of what it found there. *)
Definition shrinks {A} (m : IO A) : Prop :=
  ∀ w, (m w).1 ≠ OutOfFuel ∧ stdin (m w).2 `suffix_of` stdin w.

(** Every value [m] returns satisfies [Q]. *)
Definition returns_only {A} (m : IO A) (Q : A → Prop) : Prop :=
  ∀ w a w', m w = (Returned a, w') → Q a.

(** Instances of the library functions for the examples: [s.strip()]
    for texts whose only blanks are ASCII spaces, and [int(s)] for a run
    of ASCII digits with an optional minus sign.  The other blanks
    [strip] removes and the other spellings [int] accepts are not
    modelled; the theorems hold for every [strip] and [int_]. *)
Fixpoint drop_spaces (cs : list ascii) : list ascii :=
  match cs with
  | c :: cs' => if Datetime.is_space c then drop_spaces cs' else cs
  | [] => []
  end.

Definition strip_spaces (s : string) : string :=
  String.string_of_list_ascii
    (rev (drop_spaces (rev (drop_spaces (String.list_ascii_of_string s))))).

Fixpoint digits_value (cs : list ascii) (acc : Z) : option Z :=
  match cs with
  | [] => Some acc
  | c :: cs' =>
      match Datetime.digit_val c with
      | Some d => digits_value cs' (10 * acc + d)%Z
      | None => None
      end
  end.

Definition int_digits (s : string) : option Z :=
  match String.list_ascii_of_string s with
  | [] => None
  | c :: cs =>
      if Datetime.is_dash c
      then match cs with [] => None | _ :: _ => Z.opp <$> digits_value cs 0 end
      else digits_value (c :: cs) 0
  end.

(** A session at the keyboard, on a machine without a task file. *)
Definition typed_lines : list string :=
  ["1"; " Buy milk "; ""; "high"; ""; ""; "2"; "6"; "1"; "5"; "8"; "x"; "never read"].

Definition first_run : World :=
  mkWorld (mkState (mk "" [] PNone) [] ∅) typed_lines [] 0.

(** A later session, on a machine whose task file holds two records. *)
Definition later_run : World :=
  mkWorld (mkState (mk "" [] PNone) []
             (<["tasks.json" := Document untyped_document]> ∅))
    ["3"; "6"; "7"; "6"; "2"; "9"; "never read"] [] 0.

Definition sample_clock (k : nat) : Datetime.t :=
  Datetime.mk 2024 3 15 12 0 (Z.of_nat k) 0.

Definition sample_main : IO unit :=
  main sample_clock strip_spaces int_digits Display.str_scalar Datetime.strptime_ymd.

End Menu.

(** Unfolding the primitives of the method monad. *)
Ltac unfold_monad :=
  unfold bind, ret, raise, lift, read_self, write_self, deref, store, alloc,
    path_exists, json_load, json_dump in *.

(** * Properties *)

(** ** Python values *)

Lemma eq_str_spec v s : Py.eq_str v s = true ↔ v = PStr s.
Proof.
  destruct v; simpl; try (split; [discriminate | intros [=]]).
  rewrite String.eqb_eq. split; [congruence | by intros [= ->]].
Qed.

Lemma eq_int_PInt m n : Py.eq_int (PInt m) n = true ↔ m = n.
Proof. simpl. apply Z.eqb_eq. Qed.

Lemma truthy_PBool v b : v = PBool b → Py.truthy v = b.
Proof. by intros ->. Qed.

Lemma truthy_PStr s : s ≠ "" → Py.truthy (PStr s) = true.
Proof.
  intros Hs. simpl. apply negb_true_iff, String.eqb_neq, Hs.
Qed.

(** ** Task *)

(** Any reading of the clock after 00:00:00.000000 is later than the
    midnight that starts its day. *)
Lemma gt_midnight_of_today now :
  (0 ≤ Datetime.hour now)%Z → (0 ≤ Datetime.minute now)%Z →
  (0 ≤ Datetime.second now)%Z → (0 ≤ Datetime.microsecond now)%Z →
  (0 < Datetime.hour now + Datetime.minute now + Datetime.second now
       + Datetime.microsecond now)%Z →
  Datetime.gt now
    (Datetime.midnight (Datetime.year now) (Datetime.month now) (Datetime.day now))
  = true.
Proof.
  intros Hh Hm Hs Hu Hpos.
  unfold Datetime.gt, Datetime.fields, Datetime.midnight. simpl.
  rewrite !Z.compare_refl.
  destruct (Z.compare_spec (Datetime.hour now) 0); try done; try lia.
  destruct (Z.compare_spec (Datetime.minute now) 0); try done; try lia.
  destruct (Z.compare_spec (Datetime.second now) 0); try done; try lia.
  destruct (Z.compare_spec (Datetime.microsecond now) 0); try done; lia.
Qed.

(** What [is_overdue] computes for a pending task with a deadline that
    parses. *)
Lemma is_overdue_pending strptime now task s d :
  Task.deadline task = PStr s → s ≠ "" →
  Py.truthy (Task.completed task) = false →
  strptime s = Some d →
  Task.is_overdue strptime now task = Ok (Datetime.gt now d).
Proof.
  intros Hd Hs Hc Hp. unfold Task.is_overdue.
  rewrite Hd, Hc, (truthy_PStr s Hs). simpl. by rewrite Hp.
Qed.

(** C2 (the code departs from the claim): on the deadline day itself, at
    any time after midnight, a pending task is reported overdue, because
    the parsed deadline is the midnight that starts the day and the
    comparison is between timestamps, not dates. *)
Theorem is_overdue_on_deadline_day strptime now task s
  (Hdeadline : Task.deadline task = PStr s)
  (Hnonempty : s ≠ "")
  (Hpending : Task.completed task = PBool false)
  (Hparse : strptime s = Some (Datetime.midnight (Datetime.year now)
                                 (Datetime.month now) (Datetime.day now)))
  (Hhour : (0 ≤ Datetime.hour now)%Z)
  (Hminute : (0 ≤ Datetime.minute now)%Z)
  (Hsecond : (0 ≤ Datetime.second now)%Z)
  (Hmicro : (0 ≤ Datetime.microsecond now)%Z)
  (Hafter : (0 < Datetime.hour now + Datetime.minute now + Datetime.second now
                 + Datetime.microsecond now)%Z) :
  Task.is_overdue strptime now task = Ok true.
Proof.
  rewrite (is_overdue_pending _ _ _ _ _ Hdeadline Hnonempty
             (truthy_PBool _ _ Hpending) Hparse).
  by rewrite gt_midnight_of_today.
Qed.

(** At noon of 2024-03-15 a pending task due 2024-03-15 is overdue. *)
Lemma is_overdue_on_deadline_day_witness :
  Task.is_overdue Datetime.strptime_ymd (Datetime.mk 2024 3 15 12 0 0 0)
    (Task.__init__ (Datetime.mk 2024 3 1 9 30 0 0) (PStr "Buy milk") (PStr "")
       (PStr "high") (PStr "general") (PStr "2024-03-15"))
  = Ok true.
Proof.
  apply (is_overdue_on_deadline_day Datetime.strptime_ymd
           (Datetime.mk 2024 3 15 12 0 0 0) _ "2024-03-15");
    first [reflexivity | discriminate | simpl; lia].
Defined.

(** The other two boundary cases of the claim do hold: one day late is
    overdue, and a completed task is not. *)
Example is_overdue_one_day_late :
  Task.is_overdue Datetime.strptime_ymd (Datetime.mk 2024 3 16 0 0 0 0)
    (Task.__init__ (Datetime.mk 2024 3 1 9 30 0 0) (PStr "Buy milk") (PStr "")
       (PStr "high") (PStr "general") (PStr "2024-03-15"))
  = Ok true.
Proof. reflexivity. Qed.

Example is_overdue_completed_past_deadline :
  Task.is_overdue Datetime.strptime_ymd (Datetime.mk 2024 3 16 0 0 0 0)
    (Task.mark_complete (Datetime.mk 2024 3 2 8 0 0 0)
       (Task.__init__ (Datetime.mk 2024 3 1 9 30 0 0) (PStr "Buy milk") (PStr "")
          (PStr "high") (PStr "general") (PStr "2024-03-15")))
  = Ok false.
Proof. reflexivity. Qed.

(** C4: from construction on, and after every [mark_complete],
    [completed] is [True] exactly when [completed_at] is set. *)
Theorem completion_invariant task (Hlife : Task.lifecycle task) :
  (Task.completed task = PBool true ↔ Task.completed_at task ≠ PNone)
  ∧ ((Task.completed task = PBool false ∧ Task.completed_at task = PNone)
     ∨ (Task.completed task = PBool true
        ∧ ∃ now, Task.completed_at task = PStr (Datetime.strftime now))).
Proof.
  assert (Hshape :
    (Task.completed task = PBool false ∧ Task.completed_at task = PNone)
    ∨ (Task.completed task = PBool true
       ∧ ∃ now, Task.completed_at task = PStr (Datetime.strftime now))).
  { induction Hlife as [now a b c d e | now self _ _].
    - left. done.
    - right. split; [done | by exists now]. }
  split; [|exact Hshape].
  destruct Hshape as [[-> ->] | [-> [now ->]]]; split; done.
Qed.

Lemma completion_invariant_witness :
  Task.completed sample_completed_twice = PBool true
  ↔ Task.completed_at sample_completed_twice ≠ PNone.
Proof.
  apply (completion_invariant sample_completed_twice).
  unfold sample_completed_twice, Task.create.
  do 2 apply Task.completed_again. apply Task.constructed.
Defined.

(** C10: an empty-string deadline behaves as no deadline: the answer is
    [False] for every completion state, clock and parser. *)
Theorem empty_deadline_is_no_deadline strptime now task unset
  (Hempty : Task.deadline task = PStr "")
  (Hunset : Task.deadline unset = PNone) :
  Task.is_overdue strptime now task = Ok false
  ∧ Task.is_overdue strptime now task = Task.is_overdue strptime now unset.
Proof.
  unfold Task.is_overdue. rewrite Hempty, Hunset. simpl. done.
Qed.

Lemma empty_deadline_is_no_deadline_witness :
  Task.is_overdue (λ _, None) (Datetime.mk 2024 3 16 0 0 0 0)
    (Task.__init__ (Datetime.mk 2024 3 1 9 30 0 0) (PStr "Buy milk") (PStr "")
       (PStr "high") (PStr "general") (PStr ""))
  = Ok false.
Proof.
  refine (proj1 (empty_deadline_is_no_deadline (λ _, None)
            (Datetime.mk 2024 3 16 0 0 0 0) _
            (Task.create (Datetime.mk 2024 3 1 9 30 0 0) (PStr "x")) _ _));
    reflexivity.
Defined.

(** ** The method monad and [save_tasks] *)

Lemma bind_ok {A B} (m : M A) (k : A → M B) st a st' :
  m st = (Ok a, st') → bind m k st = k a st'.
Proof. intros H. unfold bind. by rewrite H. Qed.

Lemma bind_raise {A B} (m : M A) (k : A → M B) st e st' :
  m st = (Raise e, st') → bind m k st = (Raise e, st').
Proof. intros H. unfold bind. by rewrite H. Qed.

Lemma deref_ok st l obj : heap st !! l = Some obj → deref l st = (Ok obj, st).
Proof. intros H. unfold deref. by rewrite H. Qed.

Lemma State_eta st : mkState (self st) (heap st) (disk st) = st.
Proof. by destruct st. Qed.

Lemma t_eta (me : TaskManager.t) : mk (filename me) (tasks me) (next_id me) = me.
Proof. by destruct me. Qed.

Lemma lookup_live (h : list Task.t) (l : loc) :
  l < length h → ∃ obj, h !! l = Some obj.
Proof. intros Hl. by apply lookup_lt_is_Some in Hl as [obj Hobj]; exists obj. Qed.

Lemma contents_objects st :
  live st →
  contents st = Some <$> objects (heap st) (tasks (self st)).
Proof.
  unfold live, contents, objects.
  induction 1 as [|l ts Hl _ IH]; simpl; [done|].
  destruct (lookup_live _ _ Hl) as [obj Hobj].
  rewrite Hobj. simpl. by rewrite IH.
Qed.

(** Serialising the listed objects reads the heap and changes nothing. *)
Lemma for_each_to_dict_state ts st :
  (for_each (λ l, let! task := deref l in ret (Task.to_dict task)) ts st).2 = st.
Proof.
  induction ts as [|l ts IH]; simpl; [done|].
  unfold_monad. destruct (heap st !! l); simpl; [|done].
  destruct (for_each _ ts st) as [[ds|e] st'] eqn:E; simpl in *; congruence.
Qed.

Lemma for_each_to_dict_live ts st :
  Forall (λ l, l < length (heap st)) ts →
  for_each (λ l, let! task := deref l in ret (Task.to_dict task)) ts st
  = (Ok (map Task.to_dict (objects (heap st) ts)), st).
Proof.
  unfold objects. induction 1 as [|l ts Hl _ IH]; [done|].
  destruct (lookup_live _ _ Hl) as [obj Hobj].
  cbn [for_each omap list_omap]. rewrite Hobj.
  erewrite bind_ok; [|erewrite bind_ok; [|by apply deref_ok]; reflexivity].
  erewrite bind_ok; [|exact IH]. done.
Qed.

(** [save_tasks] touches neither the attributes nor the heap. *)
Lemma save_tasks_frame st :
  ∃ r d, save_tasks st = (r, mkState (self st) (heap st) d).
Proof.
  unfold save_tasks, bind, read_self.
  pose proof (for_each_to_dict_state (tasks (self st)) st) as Hst.
  destruct (for_each _ (tasks (self st)) st) as [[ds|e] st'];
    simpl in Hst; subst st'.
  - eexists _, _. reflexivity.
  - exists (Raise e), (disk st). by rewrite State_eta.
Qed.

Lemma save_tasks_live st :
  live st →
  save_tasks st
  = (Ok tt, mkState (self st) (heap st)
              (<[filename (self st) := Document (snapshot (self st) (heap st))]>
                 (disk st))).
Proof.
  intros Hlive. unfold save_tasks. unfold bind at 1. unfold read_self at 1.
  unfold bind at 1. by rewrite (for_each_to_dict_live _ _ Hlive).
Qed.

(** ** get_task *)

(** The scan of [get_task] changes nothing. *)
Lemma get_task_from_state task_id ts st :
  (get_task_from task_id ts st).2 = st.
Proof.
  induction ts as [|l ts IH]; simpl; [done|].
  unfold bind, deref. destruct (heap st !! l) as [obj|]; [|done].
  destruct (Py.eq_int (Task.id obj) task_id); [done | apply IH].
Qed.

Lemma get_task_state task_id st : (get_task task_id st).2 = st.
Proof. unfold get_task, bind, read_self. apply get_task_from_state. Qed.

Lemma get_task_from_none task_id ts st :
  none_with_id (heap st) task_id ts →
  get_task_from task_id ts st = (Ok None, st).
Proof.
  induction 1 as [|l ts (obj & Hobj & Hne) _ IH]; simpl; [done|].
  unfold bind, deref. by rewrite Hobj, Hne.
Qed.

Lemma get_task_from_first task_id ts st i l :
  first_with_id (heap st) task_id ts i l →
  get_task_from task_id ts st = (Ok (Some l), st).
Proof.
  revert i. induction ts as [|l0 ts IH]; intros i (Hi & (obj & Hobj & Heq) & Hbefore).
  - done.
  - simpl. unfold bind, deref. destruct i as [|i].
    + injection Hi as ->. by rewrite Hobj, Heq.
    + destruct (Hbefore 0 l0) as (obj0 & Hobj0 & Hne0); [lia | done |].
      rewrite Hobj0, Hne0. apply (IH i). split; [done|]. split; [by exists obj|].
      intros j l' Hj Hl'. apply (Hbefore (S j) l'); [lia | done].
Qed.

(** Conversely, on a live list the scan finds the first match or none. *)
Lemma get_task_from_live task_id ts st :
  Forall (λ l, l < length (heap st)) ts →
  (none_with_id (heap st) task_id ts ∧ get_task_from task_id ts st = (Ok None, st))
  ∨ (∃ i l, first_with_id (heap st) task_id ts i l
            ∧ get_task_from task_id ts st = (Ok (Some l), st)).
Proof.
  induction 1 as [|l ts Hl _ IH].
  - left. split; [constructor | done].
  - destruct (lookup_live _ _ Hl) as [obj Hobj].
    destruct (Py.eq_int (Task.id obj) task_id) eqn:Heq.
    + right. exists 0, l.
      assert (Hfirst : first_with_id (heap st) task_id (l :: ts) 0 l).
      { split; [done|]. split; [by exists obj|]. intros j l' Hj. lia. }
      split; [done | by apply (get_task_from_first _ _ _ 0)].
    + destruct IH as [[Hnone Hrun] | (i & l' & Hfirst & Hrun)].
      * left. assert (Hn : none_with_id (heap st) task_id (l :: ts)).
        { constructor; [by exists obj | done]. }
        split; [done | by apply get_task_from_none].
      * right. exists (S i), l'.
        assert (Hf : first_with_id (heap st) task_id (l :: ts) (S i) l').
        { destruct Hfirst as (Hi & Hm & Hbefore). split; [done|]. split; [done|].
          intros [|j] l0 Hj Hl0.
          - injection Hl0 as <-. by exists obj.
          - apply (Hbefore j l0); [lia | done]. }
        split; [done | by apply (get_task_from_first _ _ _ (S i))].
Qed.

(** The object found is not listed earlier, so [remove] takes out the
    very entry the scan stopped at. *)
Lemma remove_first_at h task_id ts i l :
  first_with_id h task_id ts i l →
  remove_first l ts = Some (delete i ts).
Proof.
  revert i. induction ts as [|l0 ts IH]; intros i (Hi & (obj & Hobj & Heq) & Hbefore).
  - done.
  - destruct i as [|i]; simpl.
    + injection Hi as ->. by rewrite decide_True.
    + destruct (Hbefore 0 l0) as (obj0 & Hobj0 & Hne0); [lia | done |].
      rewrite decide_False; [|intros ->; congruence].
      rewrite (IH i); [done|]. split; [done|]. split; [by exists obj|].
      intros j l' Hj Hl'. apply (Hbefore (S j) l'); [lia | done].
Qed.

(** ** The counter across calls *)

Lemma add_task_dangling task st :
  heap st !! task = None → add_task task st = (Raise DanglingReference, st).
Proof.
  intros H. unfold add_task, bind, read_self, deref. by rewrite H.
Qed.

Lemma add_task_counter task st n obj :
  next_id (self st) = PInt n →
  heap st !! task = Some obj →
  let me' := mk (filename (self st)) (tasks (self st) ++ [task]) (PInt (n + 1)) in
  let h' := <[task := Task.set_id (PInt n) obj]> (heap st) in
  ∃ r d, add_task task st = (r, mkState me' h' d)
         ∧ (r = Ok (PInt n) ∨ ∃ e, r = Raise e).
Proof.
  intros Hn Hobj me' h'.
  unfold add_task, bind, read_self, deref, store, write_self, lift. simpl.
  rewrite Hobj. simpl. rewrite Hn. simpl. rewrite Hobj. simpl.
  match goal with |- context [save_tasks ?s] =>
    destruct (save_tasks_frame s) as (r & d & E); rewrite E end.
  simpl in *. destruct r as [[]|e].
  - rewrite list_lookup_insert_eq by (by eapply lookup_lt_Some).
    unfold ret. simpl. eauto 6.
  - eauto 6.
Qed.

Lemma get_task_run task_id st : ∃ r, get_task task_id st = (r, st).
Proof.
  pose proof (get_task_state task_id st) as H.
  destruct (get_task task_id st) as [r st']. simpl in H. subst st'. by exists r.
Qed.

Lemma same_state st :
  st = mkState (mk (filename (self st)) (tasks (self st)) (next_id (self st)))
         (heap st) (disk st).
Proof. by rewrite t_eta, State_eta. Qed.

Lemma delete_task_counter task_id st :
  ∃ r ts d, delete_task task_id st
            = (r, mkState (mk (filename (self st)) ts (next_id (self st)))
                    (heap st) d).
Proof.
  unfold delete_task. destruct (get_task_run task_id st) as [[[l|]|e] E].
  - rewrite (bind_ok _ _ _ _ _ E). unfold bind, read_self.
    destruct (remove_first l (tasks (self st))) as [ts|].
    + unfold write_self. simpl.
      match goal with |- context [save_tasks ?s] =>
        destruct (save_tasks_frame s) as (r & d & E'); rewrite E' end.
      simpl. destruct r; eauto.
    + exists (Raise ValueError), (tasks (self st)), (disk st).
      unfold raise. f_equal. apply same_state.
  - rewrite (bind_ok _ _ _ _ _ E). exists (Ok false), (tasks (self st)), (disk st).
    unfold ret. f_equal. apply same_state.
  - rewrite (bind_raise _ _ _ _ _ E). exists (Raise e), (tasks (self st)), (disk st).
    f_equal. apply same_state.
Qed.

Lemma complete_task_counter now task_id st :
  ∃ r h d, complete_task now task_id st = (r, mkState (self st) h d).
Proof.
  unfold complete_task. destruct (get_task_run task_id st) as [[[l|]|e] E].
  - rewrite (bind_ok _ _ _ _ _ E). unfold bind, deref, store.
    destruct (heap st !! l) as [obj|] eqn:Hobj; simpl.
    + rewrite Hobj.
      match goal with |- context [save_tasks ?s] =>
        destruct (save_tasks_frame s) as (r & d & E'); rewrite E' end.
      simpl. destruct r; eauto.
    + exists (Raise DanglingReference), (heap st), (disk st). by rewrite State_eta.
  - rewrite (bind_ok _ _ _ _ _ E). exists (Ok false), (heap st), (disk st).
    by rewrite State_eta.
  - rewrite (bind_raise _ _ _ _ _ E). exists (Raise e), (heap st), (disk st).
    by rewrite State_eta.
Qed.

(** One call moves the counter forward by at most one, and an ID it
    returns is the value the counter had. *)
Lemma perform_counter c st n :
  next_id (self st) = PInt n →
  ∃ zs n', (perform c st).1 = PInt <$> zs
           ∧ next_id (self (perform c st).2) = PInt n'
           ∧ (n ≤ n')%Z
           ∧ (zs = [] ∨ (zs = [n] ∧ n' = (n + 1)%Z)).
Proof.
  intros Hn. destruct c as [now a b c d e | task | task_id | now task_id]; simpl.
  - exists [], n. repeat split; [done | lia | by left].
  - destruct (heap st !! task) as [obj|] eqn:Hobj.
    + destruct (add_task_counter task st n obj Hn Hobj) as (r & d & E & Hr).
      rewrite E. destruct Hr as [-> | [e ->]]; simpl.
      * exists [n], (n + 1)%Z. repeat split; [lia | by right].
      * exists [], (n + 1)%Z. repeat split; [lia | by left].
    + rewrite (add_task_dangling _ _ Hobj). simpl.
      exists [], n. repeat split; [done | lia | by left].
  - destruct (delete_task_counter task_id st) as (r & ts & d & E). rewrite E. simpl.
    exists [], n. repeat split; [done | lia | by left].
  - destruct (complete_task_counter now task_id st) as (r & h & d & E). rewrite E. simpl.
    exists [], n. repeat split; [done | lia | by left].
Qed.

Lemma session_counter cs st n :
  next_id (self st) = PInt n →
  ∃ zs n', (session cs st).1 = PInt <$> zs
           ∧ next_id (self (session cs st).2) = PInt n'
           ∧ (n ≤ n')%Z
           ∧ Forall (λ z, n ≤ z < n')%Z zs
           ∧ StronglySorted Z.lt zs.
Proof.
  revert st n. induction cs as [|c cs IH]; intros st n Hn.
  - exists [], n. simpl. repeat split; [done | lia | constructor | constructor].
  - destruct (perform_counter c st n Hn) as (zs1 & n1 & Hids1 & Hn1 & Hle1 & Hzs1).
    simpl. destruct (perform c st) as [ids1 st1]. simpl in Hids1, Hn1.
    destruct (IH st1 n1 Hn1) as (zs2 & n2 & Hids2 & Hn2 & Hle2 & Hin2 & Hsorted2).
    destruct (session cs st1) as [ids2 st2]. simpl in *.
    exists (zs1 ++ zs2), n2. subst ids1 ids2.
    split; [by rewrite fmap_app|]. split; [done|]. split; [lia|].
    assert (Hin2' : Forall (λ z, (n ≤ z < n2)%Z) zs2).
    { eapply Forall_impl; [exact Hin2|]. simpl. intros z Hz. lia. }
    destruct Hzs1 as [-> | [-> ->]]; simpl.
    + done.
    + split.
      * constructor; [lia | done].
      * constructor; [done|]. eapply Forall_impl; [exact Hin2|]. simpl. lia.
Qed.

(** ** Exact outcomes of [delete_task] and [complete_task] *)

Lemma get_task_none task_id st :
  none_with_id (heap st) task_id (tasks (self st)) →
  get_task task_id st = (Ok None, st).
Proof. intros H. unfold get_task, bind, read_self. by apply get_task_from_none. Qed.

Lemma get_task_first task_id st i l :
  first_with_id (heap st) task_id (tasks (self st)) i l →
  get_task task_id st = (Ok (Some l), st).
Proof.
  intros H. unfold get_task, bind, read_self. by apply (get_task_from_first _ _ _ i).
Qed.

Lemma delete_task_absent task_id st :
  none_with_id (heap st) task_id (tasks (self st)) →
  delete_task task_id st = (Ok false, st).
Proof.
  intros H. unfold delete_task. by rewrite (bind_ok _ _ _ _ _ (get_task_none _ _ H)).
Qed.

Lemma delete_task_present task_id st i l :
  live st →
  first_with_id (heap st) task_id (tasks (self st)) i l →
  let me' := mk (filename (self st)) (delete i (tasks (self st))) (next_id (self st)) in
  delete_task task_id st
  = (Ok true, mkState me' (heap st)
                (<[filename (self st) := Document (snapshot me' (heap st))]> (disk st))).
Proof.
  intros Hlive Hfirst me'. unfold delete_task.
  rewrite (bind_ok _ _ _ _ _ (get_task_first _ _ _ _ Hfirst)).
  unfold bind at 1. unfold read_self at 1.
  rewrite (remove_first_at _ _ _ _ _ Hfirst).
  unfold bind at 1. unfold write_self at 1.
  erewrite bind_ok; [reflexivity|].
  rewrite save_tasks_live; [done|].
  unfold live. simpl. by apply Forall_delete.
Qed.

Lemma first_with_id_update h task_id ts i l obj obj' :
  first_with_id h task_id ts i l →
  h !! l = Some obj →
  Task.id obj' = Task.id obj →
  first_with_id (<[l := obj']> h) task_id ts i l.
Proof.
  intros (Hi & (o & Ho & Heq) & Hbefore) Hobj Hid.
  assert (o = obj) as -> by congruence.
  split; [done|]. split.
  - exists obj'. split; [|by rewrite Hid].
    apply list_lookup_insert_eq. by eapply lookup_lt_Some.
  - intros j l' Hj Hl'. destruct (Hbefore j l' Hj Hl') as (o' & Ho' & Hne).
    exists o'. split; [|done].
    rewrite list_lookup_insert_ne; [done|]. intros ->. congruence.
Qed.

Lemma complete_task_absent now task_id st :
  none_with_id (heap st) task_id (tasks (self st)) →
  complete_task now task_id st = (Ok false, st).
Proof.
  intros H. unfold complete_task. by rewrite (bind_ok _ _ _ _ _ (get_task_none _ _ H)).
Qed.

Lemma complete_task_present now task_id st i l obj :
  live st →
  first_with_id (heap st) task_id (tasks (self st)) i l →
  heap st !! l = Some obj →
  let h' := <[l := Task.mark_complete now obj]> (heap st) in
  complete_task now task_id st
  = (Ok true, mkState (self st) h'
                (<[filename (self st) := Document (snapshot (self st) h')]> (disk st))).
Proof.
  intros Hlive Hfirst Hobj h'. unfold complete_task.
  rewrite (bind_ok _ _ _ _ _ (get_task_first _ _ _ _ Hfirst)).
  rewrite (bind_ok _ _ _ _ _ (deref_ok _ _ _ Hobj)).
  unfold bind at 1. unfold store at 1. rewrite Hobj.
  erewrite bind_ok; [reflexivity|].
  rewrite save_tasks_live; [done|].
  unfold live. simpl. by rewrite length_insert.
Qed.

(** ** Delete *)

(** C6: deleting an ID no task holds answers [False] and leaves the
    attributes, the heap and the disk as they were; deleting an ID that is
    held removes the first entry holding it, rewrites the file with the
    new state and answers [True].  One of the two cases applies to every
    store. *)
Theorem delete_task_outcomes task_id st (Hlive : live st) :
  (none_with_id (heap st) task_id (tasks (self st)) →
     delete_task task_id st = (Ok false, st))
  ∧ (∀ i l, first_with_id (heap st) task_id (tasks (self st)) i l →
       let me' := mk (filename (self st)) (delete i (tasks (self st)))
                     (next_id (self st)) in
       delete_task task_id st
       = (Ok true,
          mkState me' (heap st)
            (<[filename (self st) := Document (snapshot me' (heap st))]> (disk st))))
  ∧ (none_with_id (heap st) task_id (tasks (self st))
     ∨ ∃ i l, first_with_id (heap st) task_id (tasks (self st)) i l).
Proof.
  split; [apply delete_task_absent|].
  split; [intros i l Hfirst; exact (delete_task_present _ _ i l Hlive Hfirst)|].
  destruct (get_task_from_live task_id (tasks (self st)) st Hlive)
    as [[Hnone _] | (i & l & Hfirst & _)]; [by left | right; eauto].
Qed.

Lemma sample_store_live : live sample_store.
Proof. unfold live. simpl. repeat constructor. Qed.

Lemma delete_task_outcomes_witness :
  delete_task 99 sample_store = (Ok false, sample_store)
  ∧ (delete_task 2 sample_store).1 = Ok true
  ∧ tasks (self (delete_task 2 sample_store).2) = [0; 2].
Proof.
  destruct (delete_task_outcomes 99 sample_store sample_store_live) as (Habsent & _ & _).
  destruct (delete_task_outcomes 2 sample_store sample_store_live) as (_ & Hpresent & _).
  split.
  - apply Habsent. unfold none_with_id. simpl.
    repeat constructor; eexists; (split; [reflexivity | reflexivity]).
  - assert (Hfirst : first_with_id (heap sample_store) 2 (tasks (self sample_store)) 1 1).
    { split; [reflexivity|]. split; [eexists; split; reflexivity|].
      intros j l' Hj Hl'. assert (j = 0) as -> by lia. injection Hl' as <-.
      eexists; split; reflexivity. }
    rewrite (Hpresent 1 1 Hfirst). split; reflexivity.
Defined.

(** ** Complete *)

(** C8: completing the same task twice succeeds both times; the task
    stays completed and its [completed_at] is the timestamp of the second
    call, which replaces the one the first call wrote. *)
Theorem complete_task_twice now1 now2 task_id st i l obj
  (Hlive : live st)
  (Hfirst : first_with_id (heap st) task_id (tasks (self st)) i l)
  (Hobj : heap st !! l = Some obj) :
  ∃ st1 st2 obj1 obj2,
    complete_task now1 task_id st = (Ok true, st1)
    ∧ complete_task now2 task_id st1 = (Ok true, st2)
    ∧ heap st1 !! l = Some obj1
    ∧ heap st2 !! l = Some obj2
    ∧ Task.completed obj1 = PBool true
    ∧ Task.completed_at obj1 = PStr (Datetime.strftime now1)
    ∧ Task.completed obj2 = PBool true
    ∧ Task.completed_at obj2 = PStr (Datetime.strftime now2)
    ∧ obj2 = Task.mark_complete now2 (Task.mark_complete now1 obj)
    ∧ (Datetime.strftime now1 ≠ Datetime.strftime now2 →
       Task.completed_at obj2 ≠ Task.completed_at obj1).
Proof.
  pose proof (lookup_lt_Some _ _ _ Hobj) as Hl.
  set (obj1 := Task.mark_complete now1 obj).
  set (h1 := <[l := obj1]> (heap st)).
  set (st1 := mkState (self st) h1
                (<[filename (self st) := Document (snapshot (self st) h1)]> (disk st))).
  assert (Hobj1 : heap st1 !! l = Some obj1).
  { simpl. by apply list_lookup_insert_eq. }
  assert (Hlive1 : live st1).
  { unfold live, st1, h1. simpl. by rewrite length_insert. }
  assert (Hfirst1 : first_with_id (heap st1) task_id (tasks (self st1)) i l).
  { simpl. by apply (first_with_id_update _ _ _ _ _ obj). }
  set (obj2 := Task.mark_complete now2 obj1).
  set (h2 := <[l := obj2]> (heap st1)).
  exists st1,
    (mkState (self st1) h2
       (<[filename (self st1) := Document (snapshot (self st1) h2)]> (disk st1))),
    obj1, obj2.
  split; [exact (complete_task_present now1 _ _ _ _ _ Hlive Hfirst Hobj)|].
  split; [exact (complete_task_present now2 _ _ _ _ _ Hlive1 Hfirst1 Hobj1)|].
  split; [done|].
  split.
  { apply list_lookup_insert_eq. exact (lookup_lt_Some _ _ _ Hobj1). }
  repeat split. simpl. congruence.
Qed.

Lemma complete_task_twice_witness :
  ∃ st1 st2 obj2,
    complete_task (Datetime.mk 2024 3 15 12 0 0 0) 1 sample_store = (Ok true, st1)
    ∧ complete_task (Datetime.mk 2024 3 16 7 45 10 0) 1 st1 = (Ok true, st2)
    ∧ heap st2 !! 0 = Some obj2
    ∧ Task.completed obj2 = PBool true
    ∧ Task.completed_at obj2 = PStr "2024-03-16 07:45:10".
Proof.
  assert (Hfirst : first_with_id (heap sample_store) 1 (tasks (self sample_store)) 0 0).
  { split; [reflexivity|]. split; [eexists; split; reflexivity|].
    intros j l' Hj. lia. }
  destruct (complete_task_twice (Datetime.mk 2024 3 15 12 0 0 0)
              (Datetime.mk 2024 3 16 7 45 10 0) 1 sample_store 0 0 _
              sample_store_live Hfirst eq_refl)
    as (st1 & st2 & obj1 & obj2 & H1 & H2 & _ & Hl2 & _ & _ & Hc & Hat & _).
  exists st1, st2, obj2. repeat split; assumption.
Defined.

(** ** Filter views *)

Lemma exactly_those_sublist P ts r : exactly_those P ts r → sublist r ts.
Proof.
  induction 1; [constructor | by apply sublist_skip | by apply sublist_cons].
Qed.

Lemma exactly_those_elem P ts r l :
  exactly_those P ts r → l ∈ r ↔ l ∈ ts ∧ P l.
Proof.
  induction 1 as [|l0 ts r Hl0 _ IH|l0 ts r Hl0 _ IH].
  - split; [by intros ?%elem_of_nil | by intros [?%elem_of_nil _]].
  - rewrite !elem_of_cons, IH. split.
    + intros [-> | [? ?]]; [by split; [left|] | by split; [right|]].
    + intros [[-> | ?] ?]; [by left | by right].
  - rewrite elem_of_cons, IH. split.
    + intros [? ?]. by split; [right|].
    + intros [[-> | ?] ?]; [done | by split].
Qed.

Lemma exactly_those_unique P ts r1 r2 :
  exactly_those P ts r1 → exactly_those P ts r2 → r1 = r2.
Proof.
  intros H1. revert r2. induction H1 as [|l ts r Hl _ IH|l ts r Hl _ IH];
    intros r2 H2; inversion H2; subst; try done.
  - f_equal. by apply IH.
  - by apply IH.
Qed.

(** A comprehension with a test that cannot raise keeps exactly the
    references whose object passes the test, and changes nothing. *)
Lemma select_exactly st (q : Task.t → bool) (P : Task.t → Prop) ts :
  Forall (λ l, ∃ obj, heap st !! l = Some obj ∧ (q obj = true ↔ P obj)) ts →
  ∃ r, select (λ obj, Ok (q obj)) ts st = (Ok r, st)
       ∧ exactly_those (designates st P) ts r.
Proof.
  induction 1 as [|l ts (obj & Hobj & Hq) _ (r & Hrun & Hr)].
  - exists []. split; [done | constructor].
  - cbn [select].
    rewrite (bind_ok _ _ _ _ _ (deref_ok _ _ _ Hobj)).
    unfold bind at 1. unfold lift at 1.
    rewrite (bind_ok _ _ _ _ _ Hrun). unfold ret.
    destruct (q obj) eqn:E.
    + exists (l :: r). split; [done|]. apply those_keep; [|done].
      exists obj. split; [done | by apply Hq].
    + exists r. split; [done|]. apply those_skip; [|done].
      intros (obj' & Hobj' & HP). assert (obj' = obj) as -> by congruence.
      apply Hq in HP. congruence.
Qed.

Lemma live_designates st (q : Task.t → bool) (P : Task.t → Prop) ts :
  Forall (λ l, l < length (heap st)) ts →
  (∀ obj, q obj = true ↔ P obj) →
  Forall (λ l, ∃ obj, heap st !! l = Some obj ∧ (q obj = true ↔ P obj)) ts.
Proof.
  intros Hlive Hq. eapply Forall_impl; [exact Hlive|]. simpl.
  intros l Hl. destruct (lookup_live _ _ Hl) as [obj Hobj]. by exists obj.
Qed.

Lemma exactly_those_iff (P Q : loc → Prop) ts r :
  Forall (λ l, P l ↔ Q l) ts → exactly_those P ts r → exactly_those Q ts r.
Proof.
  intros HPQ Hr. induction Hr as [|l ts r Hl _ IH|l ts r Hl _ IH];
    [constructor| |]; apply Forall_cons in HPQ as [Hiff HPQ].
  - apply those_keep; [by apply Hiff | by apply IH].
  - apply those_skip; [by rewrite <- Hiff | by apply IH].
Qed.

(** The store loaded from the untyped file, and its views: the task with
    [completed] [None] is pending, the task with [completed] ["false"]
    is in the completed view. *)
Example untyped_store_views :
  contents untyped_store
  = [Some (Task.mk (PInt 1) (PStr "Buy milk") (PStr "") (PStr "high") (PStr "home")
             PNone (PStr "2024-03-01 09:30:00") PNone PNone);
     Some (Task.mk (PInt 2) (PStr "File taxes") (PStr "") (PStr "high") (PStr "home")
             (PStr "false") (PStr "2024-03-01 09:30:00") PNone PNone)]
  ∧ get_pending_tasks untyped_store = (Ok [0], untyped_store)
  ∧ get_completed_tasks untyped_store = (Ok [1], untyped_store).
Proof. split; [|split]; vm_compute; reflexivity. Qed.

(** C7 as stated fails: [Pending()] and [Completed()] go by the truth
    value of [completed], not by [completed == False] and
    [completed == True].  In the store loaded from the untyped file the
    pending view holds a task whose [completed] is [None], and
    [None == False] is false. *)
Lemma pending_is_not_equality_with_false :
  ¬ (∀ st, live st →
       ∃ pending,
         get_pending_tasks st = (Ok pending, st)
         ∧ exactly_those
             (designates st (λ obj, equals_bool (Task.completed obj) false = true))
             (tasks (self st)) pending).
Proof.
  intros Hclaim.
  assert (Hlive : live untyped_store).
  { unfold live. vm_compute. repeat constructor. }
  destruct (Hclaim untyped_store Hlive) as (pending & Hrun & Hpending).
  assert (Hview : get_pending_tasks untyped_store = (Ok [0], untyped_store))
    by (vm_compute; reflexivity).
  rewrite Hview in Hrun. injection Hrun as <-.
  apply (exactly_those_elem _ _ _ 0) in Hpending.
  destruct Hpending as [Hpending _].
  destruct (Hpending ltac:(by apply list_elem_of_here)) as (_ & obj & Hobj & Heq).
  vm_compute in Hobj. injection Hobj as <-. discriminate Heq.
Qed.

(** C7, amended: each view returns exactly the tasks that match, in the
    order of the store, and leaves the attributes, the heap and the disk
    as they were.  [Pending] holds the tasks whose [completed] is falsy
    and [Completed] those whose [completed] is truthy; when [completed]
    is a boolean in every listed task, as the data model says, these are
    the tasks with [completed == False] and with [completed == True]. *)
Theorem filter_views a_category a_priority st (Hlive : live st) :
  ∃ by_category by_priority pending completed,
    get_tasks_by_category a_category st = (Ok by_category, st)
    ∧ get_tasks_by_priority a_priority st = (Ok by_priority, st)
    ∧ get_pending_tasks st = (Ok pending, st)
    ∧ get_completed_tasks st = (Ok completed, st)
    ∧ exactly_those (designates st (λ obj, Task.category obj = PStr a_category))
        (tasks (self st)) by_category
    ∧ exactly_those (designates st (λ obj, Task.priority obj = PStr a_priority))
        (tasks (self st)) by_priority
    ∧ exactly_those (designates st (λ obj, Py.truthy (Task.completed obj) = false))
        (tasks (self st)) pending
    ∧ exactly_those (designates st (λ obj, Py.truthy (Task.completed obj) = true))
        (tasks (self st)) completed
    ∧ (Forall (designates st (λ obj, ∃ b, Task.completed obj = PBool b))
         (tasks (self st)) →
       exactly_those (designates st (λ obj, Task.completed obj = PBool false))
         (tasks (self st)) pending
       ∧ exactly_those (designates st (λ obj, Task.completed obj = PBool true))
           (tasks (self st)) completed).
Proof.
  destruct (select_exactly st
              (λ obj, Py.eq_str (Task.category obj) a_category)
              (λ obj, Task.category obj = PStr a_category) (tasks (self st)))
    as (r1 & Hrun1 & Hr1).
  { apply live_designates; [done|]. intros obj. apply eq_str_spec. }
  destruct (select_exactly st
              (λ obj, Py.eq_str (Task.priority obj) a_priority)
              (λ obj, Task.priority obj = PStr a_priority) (tasks (self st)))
    as (r2 & Hrun2 & Hr2).
  { apply live_designates; [done|]. intros obj. apply eq_str_spec. }
  destruct (select_exactly st
              (λ obj, negb (Py.truthy (Task.completed obj)))
              (λ obj, Py.truthy (Task.completed obj) = false) (tasks (self st)))
    as (r3 & Hrun3 & Hr3).
  { apply live_designates; [done|]. intros obj. apply negb_true_iff. }
  destruct (select_exactly st
              (λ obj, Py.truthy (Task.completed obj))
              (λ obj, Py.truthy (Task.completed obj) = true) (tasks (self st)))
    as (r4 & Hrun4 & Hr4).
  { apply live_designates; [done|]. done. }
  exists r1, r2, r3, r4.
  unfold get_tasks_by_category, get_tasks_by_priority, get_pending_tasks,
    get_completed_tasks, bind, read_self.
  do 8 (split; [assumption|]).
  intros Hbool. split.
  - eapply exactly_those_iff; [|exact Hr3].
    eapply Forall_impl; [exact Hbool|]. simpl.
    intros l (obj & Hobj & b & Hb). split; intros (obj' & Hobj' & H');
      assert (obj' = obj) as -> by congruence; exists obj; (split; [done|]).
    + rewrite Hb in H'. simpl in H'. congruence.
    + by rewrite H'.
  - eapply exactly_those_iff; [|exact Hr4].
    eapply Forall_impl; [exact Hbool|]. simpl.
    intros l (obj & Hobj & b & Hb). split; intros (obj' & Hobj' & H');
      assert (obj' = obj) as -> by congruence; exists obj; (split; [done|]).
    + rewrite Hb in H'. simpl in H'. congruence.
    + by rewrite H'.
Qed.

Lemma filter_views_witness :
  ∃ by_category by_priority pending completed,
    get_tasks_by_category "work" sample_store = (Ok by_category, sample_store)
    ∧ get_tasks_by_priority "high" sample_store = (Ok by_priority, sample_store)
    ∧ get_pending_tasks sample_store = (Ok pending, sample_store)
    ∧ get_completed_tasks sample_store = (Ok completed, sample_store).
Proof.
  destruct (filter_views "work" "high" sample_store sample_store_live)
    as (r1 & r2 & r3 & r4 & H1 & H2 & H3 & H4 & _).
  by exists r1, r2, r3, r4.
Defined.

Example sample_store_views :
  get_tasks_by_category "work" sample_store = (Ok [1; 2], sample_store)
  ∧ get_tasks_by_priority "high" sample_store = (Ok [0; 1], sample_store)
  ∧ get_pending_tasks sample_store = (Ok [0; 2], sample_store)
  ∧ get_completed_tasks sample_store = (Ok [1], sample_store).
Proof. repeat split; reflexivity. Qed.

(** ** Overdue view *)

Lemma select_none p ts st :
  Forall (λ l, ∃ obj, heap st !! l = Some obj ∧ p obj = Ok false) ts →
  select p ts st = (Ok [], st).
Proof.
  induction 1 as [|l ts (obj & Hobj & Hp) _ IH]; [done|].
  cbn [select]. rewrite (bind_ok _ _ _ _ _ (deref_ok _ _ _ Hobj)).
  rewrite Hp. rewrite (bind_ok (lift (Ok false)) _ st false st eq_refl).
  by rewrite (bind_ok _ _ _ _ _ IH).
Qed.

(** C9: for a completed task [is_overdue] answers [False] whatever the
    parser would do with the deadline, so it cannot raise; an exception
    from [is_overdue] implies a pending task with a deadline set; and the
    overdue view of a store whose tasks are all completed is empty
    whatever their deadlines hold. *)
Theorem completed_task_never_parses strptime now task st :
  (Py.truthy (Task.completed task) = true →
     ∀ parser, Task.is_overdue parser now task = Ok false)
  ∧ (∀ e, Task.is_overdue strptime now task = Raise e →
       Py.truthy (Task.completed task) = false
       ∧ Py.truthy (Task.deadline task) = true)
  ∧ (Forall (designates st (λ obj, Py.truthy (Task.completed obj) = true))
       (tasks (self st)) →
     ∀ parser, get_overdue_tasks parser now st = (Ok [], st)).
Proof.
  assert (Hdone : ∀ obj parser, Py.truthy (Task.completed obj) = true →
                    Task.is_overdue parser now obj = Ok false).
  { intros obj parser Hobj. unfold Task.is_overdue.
    by rewrite Hobj, andb_false_r. }
  split; [intros H parser; by apply Hdone|]. split.
  - intros e. unfold Task.is_overdue.
    destruct (Py.truthy (Task.deadline task)); simpl; [|discriminate].
    destruct (Py.truthy (Task.completed task)); simpl; [discriminate|done].
  - intros Hall parser. unfold get_overdue_tasks.
    rewrite (bind_ok read_self _ st (self st) st eq_refl).
    apply select_none. eapply Forall_impl; [exact Hall|]. simpl.
    intros l (obj & Hobj & Hc). exists obj. split; [done | by apply Hdone].
Qed.

Lemma completed_task_never_parses_witness :
  Task.is_overdue (λ _, None) (Datetime.mk 2024 3 16 0 0 0 0)
    (Task.mark_complete (Datetime.mk 2024 3 2 8 0 0 0)
       (Task.__init__ (Datetime.mk 2024 3 1 9 30 0 0) (PStr "Buy milk") (PStr "")
          (PStr "high") (PStr "general") (PStr "next week")))
  = Ok false.
Proof.
  refine (proj1 (completed_task_never_parses (λ _, None)
                   (Datetime.mk 2024 3 16 0 0 0 0) _ sample_store) _ (λ _, None)).
  reflexivity.
Defined.

(** ** Add *)

Lemma StronglySorted_lt_NoDup (zs : list Z) : StronglySorted Z.lt zs → NoDup zs.
Proof.
  induction 1 as [|z zs _ IH Hall]; constructor; [|done].
  intros Hin. rewrite Forall_forall in Hall. specialize (Hall z Hin). lia.
Qed.

(** On a live store whose counter is the integer [n], adding a live task
    returns [n], stamps the task with it, appends it, moves the counter to
    [n + 1] and rewrites the file. *)
Lemma add_task_live task st n obj :
  live st →
  next_id (self st) = PInt n →
  heap st !! task = Some obj →
  let me' := mk (filename (self st)) (tasks (self st) ++ [task]) (PInt (n + 1)) in
  let h' := <[task := Task.set_id (PInt n) obj]> (heap st) in
  add_task task st
  = (Ok (PInt n),
     mkState me' h' (<[filename (self st) := Document (snapshot me' h')]> (disk st))).
Proof.
  intros Hlive Hn Hobj me' h'.
  pose proof (lookup_lt_Some _ _ _ Hobj) as Hlt.
  unfold add_task, bind, read_self, deref, store, write_self, lift. simpl.
  rewrite Hobj. simpl. rewrite Hn. simpl. rewrite Hobj. simpl.
  rewrite save_tasks_live.
  - simpl. rewrite list_lookup_insert_eq by done. reflexivity.
  - unfold live. simpl. rewrite length_insert.
    apply Forall_app. split; [exact Hlive | by constructor].
Qed.

Lemma delete_task_live task_id st :
  live st →
  ∃ r me', delete_task task_id st = (r, mkState me' (heap st) (disk (delete_task task_id st).2))
           ∧ next_id me' = next_id (self st)
           ∧ Forall (λ l, l < length (heap st)) (tasks me').
Proof.
  intros Hlive.
  destruct (get_task_from_live task_id (tasks (self st)) st Hlive)
    as [[Hnone _] | (i & l & Hfirst & _)].
  - rewrite (delete_task_absent _ _ Hnone). exists (Ok false), (self st).
    simpl. by rewrite State_eta.
  - rewrite (delete_task_present _ _ i l Hlive Hfirst). simpl.
    eexists _, _. split; [reflexivity|]. split; [done|]. simpl.
    by apply Forall_delete.
Qed.

Lemma complete_task_live now task_id st :
  live st →
  ∃ r h', complete_task now task_id st
          = (r, mkState (self st) h' (disk (complete_task now task_id st).2))
          ∧ length h' = length (heap st).
Proof.
  intros Hlive.
  destruct (get_task_from_live task_id (tasks (self st)) st Hlive)
    as [[Hnone _] | (i & l & Hfirst & _)].
  - rewrite (complete_task_absent _ _ _ Hnone). exists (Ok false), (heap st).
    simpl. by rewrite State_eta.
  - destruct Hfirst as (Hi & (obj & Hobj & Heq) & Hbefore).
    assert (Hfirst : first_with_id (heap st) task_id (tasks (self st)) i l).
    { split; [done|]. split; [by exists obj | done]. }
    rewrite (complete_task_present now _ _ i l obj Hlive Hfirst Hobj). simpl.
    eexists _, _. split; [reflexivity|]. by rewrite length_insert.
Qed.

(** On a live store every call keeps the store live, and an [Add] of a
    live task returns the counter. *)
Lemma perform_live c st n :
  live st →
  next_id (self st) = PInt n →
  adds_live [c] (length (heap st)) = true →
  ∃ st', perform c st
         = (match c with Add _ => [PInt n] | _ => [] end, st')
         ∧ live st'
         ∧ next_id (self st')
           = PInt (match c with Add _ => n + 1 | _ => n end)
         ∧ length (heap st')
           = match c with New _ _ _ _ _ _ => S (length (heap st)) | _ => length (heap st) end.
Proof.
  intros Hlive Hn Hc.
  destruct c as [now a b c d e | task | task_id | now task_id]; simpl in *.
  - eexists. split; [reflexivity|]. simpl. split; [|split; [done|]].
    + unfold live in *. simpl. eapply Forall_impl; [exact Hlive|]. simpl.
      intros l Hl. rewrite length_app. simpl. lia.
    + rewrite length_app. simpl. lia.
  - rewrite andb_true_r in Hc. apply Nat.ltb_lt in Hc.
    destruct (lookup_live _ _ Hc) as [obj Hobj].
    rewrite (add_task_live task st n obj Hlive Hn Hobj).
    eexists. split; [reflexivity|]. simpl. split; [|split; [done|]].
    + unfold live. simpl. rewrite length_insert. apply Forall_app.
      split; [exact Hlive | by constructor].
    + by rewrite length_insert.
  - destruct (delete_task_live task_id st Hlive) as (r & me' & E & Hid & Hts).
    rewrite E. simpl. eexists. split; [reflexivity|]. simpl.
    split; [exact Hts|]. split; [congruence | done].
  - destruct (complete_task_live now task_id st Hlive) as (r & h' & E & Hlen).
    rewrite E. simpl. eexists. split; [reflexivity|]. simpl.
    split; [|split; [done | done]].
    unfold live in *. simpl. by rewrite Hlen.
Qed.

Lemma session_live cs st n :
  live st →
  next_id (self st) = PInt n →
  adds_live cs (length (heap st)) = true →
  (session cs st).1 = (λ i, PInt (n + Z.of_nat i)) <$> seq 0 (count_adds cs).
Proof.
  revert st n. induction cs as [|c cs IH]; intros st n Hlive Hn Hcs; [done|].
  assert (Hc : adds_live [c] (length (heap st)) = true).
  { destruct c; simpl in *; try done.
    apply andb_true_iff in Hcs as [-> _]. done. }
  destruct (perform_live c st n Hlive Hn Hc) as (st' & E & Hlive' & Hn' & Hlen').
  cbn [session]. rewrite E.
  assert (Hcs' : adds_live cs (length (heap st')) = true).
  { rewrite Hlen'. destruct c; simpl in *; try done.
    by apply andb_true_iff in Hcs as [_ ?]. }
  specialize (IH st' _ Hlive' Hn' Hcs').
  destruct (session cs st') as [ids' st'']. simpl in IH. subst ids'.
  destruct c; simpl; try (rewrite Z.add_0_r; done); try done.
  rewrite Z.add_0_r. f_equal.
  rewrite <- (fmap_S_seq 0), <- list_fmap_compose.
  apply list_fmap_ext. intros i x _. simpl. f_equal. lia.
Qed.

(** C1: whatever calls are made on a store whose counter is an integer,
    the IDs its [Add] calls return are strictly increasing, hence pairwise
    distinct, and lie between the initial counter and the final one; a
    [Delete] in between does not move the counter back.  On a live store
    every [Add] of a live task returns, and the IDs are the consecutive
    integers from the initial counter on. *)
Theorem add_ids_strictly_increasing cs st n
  (Hcounter : next_id (self st) = PInt n) :
  (∃ ids n',
     (session cs st).1 = PInt <$> ids
     ∧ StronglySorted Z.lt ids
     ∧ NoDup ids
     ∧ next_id (self (session cs st).2) = PInt n'
     ∧ Forall (λ z, n ≤ z < n')%Z ids)
  ∧ (live st → adds_live cs (length (heap st)) = true →
     (session cs st).1 = (λ i, PInt (n + Z.of_nat i)) <$> seq 0 (count_adds cs)).
Proof.
  split.
  - destruct (session_counter cs st n Hcounter) as (zs & n' & H1 & H2 & _ & H3 & H4).
    exists zs, n'. repeat split; try done. by apply StronglySorted_lt_NoDup.
  - intros Hlive Hcs. by apply session_live.
Qed.

Lemma add_ids_strictly_increasing_witness :
  (∃ ids n',
     (session sample_session sample_store).1 = PInt <$> ids
     ∧ StronglySorted Z.lt ids
     ∧ NoDup ids
     ∧ next_id (self (session sample_session sample_store).2) = PInt n'
     ∧ Forall (λ z, 4 ≤ z < n')%Z ids)
  ∧ (session sample_session sample_store).1 = [PInt 4; PInt 5; PInt 6].
Proof.
  destruct (add_ids_strictly_increasing sample_session sample_store 4 eq_refl)
    as [Hsorted Hexact].
  split; [exact Hsorted|].
  exact (Hexact sample_store_live eq_refl).
Defined.

(** ** Load and save *)

Lemma from_dict_to_dict now task : Task.from_dict now (Task.to_dict task) = Ok task.
Proof. by destruct task. Qed.

Lemma decode_to_dict now objs : decode now (map Task.to_dict objs) = Ok objs.
Proof.
  induction objs as [|obj objs IH]; [done|].
  cbn [map decode]. by rewrite from_dict_to_dict, IH.
Qed.

Lemma from_dict_ok_iff now d :
  (∃ task, Task.from_dict now d = Ok task) ↔ Format.has_required_fields d = true.
Proof.
  destruct d as [| | | | |kvs];
    try (split; [intros [task H]; discriminate H | discriminate]).
  unfold Task.from_dict, Py.subscript, Format.has_required_fields,
    Format.required_keys, res_bind. cbn [forallb].
  split.
  - intros [task H].
    repeat match type of H with
           | context [Py.assoc ?k kvs] =>
               destruct (Py.assoc k kvs) eqn:?; [|discriminate H]
           end.
    reflexivity.
  - intros H.
    repeat match type of H with
           | context [Py.assoc ?k kvs] =>
               destruct (Py.assoc k kvs) eqn:?; [|discriminate H]
           end.
    eexists. reflexivity.
Qed.

Lemma from_dict_raises now d :
  Format.has_required_fields d = false → ∃ e, Task.from_dict now d = Raise e.
Proof.
  intros H. destruct (Task.from_dict now d) as [task|e] eqn:E; [|by exists e].
  assert (Format.has_required_fields d = true) by (apply (from_dict_ok_iff now); eauto).
  congruence.
Qed.

Lemma decode_raises now items d :
  d ∈ items → Format.has_required_fields d = false →
  ∃ e, decode now items = Raise e.
Proof.
  intros Hin Hbad. induction items as [|d0 items IH]; [by apply elem_of_nil in Hin|].
  cbn [decode]. apply elem_of_cons in Hin as [<- | Hin].
  - destruct (from_dict_raises now d Hbad) as [e ->]. by exists e.
  - destruct (Task.from_dict now d0) as [task|e]; [|by exists e].
    destruct (IH Hin) as [e ->]. by exists e.
Qed.

Lemma load_step_ok now r task me h d :
  Task.from_dict now r = Ok task →
  (let! task := lift (Task.from_dict now r) in alloc task) (mkState me h d)
  = (Ok (length h), mkState me (h ++ [task]) d).
Proof. intros E. unfold bind, lift, alloc. by rewrite E. Qed.

Lemma load_step_raise now r e me h d :
  Task.from_dict now r = Raise e →
  (let! task := lift (Task.from_dict now r) in alloc task) (mkState me h d)
  = (Raise e, mkState me h d).
Proof. intros E. unfold bind, lift. by rewrite E. Qed.

(** The loop of [load_tasks]: each record decoded is allocated at the end
    of the heap; the first record that fails stops the loop with its
    exception. *)
Lemma for_each_from_dict now items me h d :
  match decode now items with
  | Ok objs =>
      for_each (λ r, let! task := lift (Task.from_dict now r) in alloc task)
        items (mkState me h d)
      = (Ok (seq (length h) (length objs)), mkState me (h ++ objs) d)
  | Raise e =>
      ∃ h', for_each (λ r, let! task := lift (Task.from_dict now r) in alloc task)
              items (mkState me h d)
            = (Raise e, mkState me h' d)
  end.
Proof.
  revert h. induction items as [|r items IH]; intros h.
  - simpl. unfold ret. by rewrite app_nil_r.
  - cbn [decode].
    destruct (Task.from_dict now r) as [task|e] eqn:E; cbn [res_bind for_each].
    + rewrite (bind_ok _ _ _ _ _ (load_step_ok _ _ _ _ _ _ E)).
      specialize (IH (h ++ [task])).
      destruct (decode now items) as [objs|e]; cbn [res_bind].
      * rewrite (bind_ok _ _ _ _ _ IH). unfold ret.
        rewrite length_app. simpl. rewrite Nat.add_1_r.
        by rewrite <- app_assoc.
      * destruct IH as [h' IH]. exists h'.
        by rewrite (bind_raise _ _ _ _ _ IH).
    + exists h. by rewrite (bind_raise _ _ _ _ _ (load_step_raise _ _ _ _ _ _ E)).
Qed.

Lemma init_absent now path st :
  disk st !! path = None →
  __init__ now path st = (Ok tt, mkState (mk path [] (PInt 1)) (heap st) (disk st)).
Proof.
  intros H. unfold __init__, load_tasks, bind, write_self, read_self, path_exists.
  simpl. rewrite H. rewrite bool_decide_eq_false_2; [done|].
  by intros [? ?].
Qed.

Lemma init_unparsable now path st :
  disk st !! path = Some Unparsable →
  (__init__ now path st).1 = Raise JSONDecodeError.
Proof.
  intros H. unfold __init__, load_tasks, bind, write_self, read_self, path_exists,
    json_load.
  cbn. rewrite H. rewrite bool_decide_eq_true_2 by (by eexists).
  cbn. by rewrite H.
Qed.

Lemma init_not_object now path st data :
  disk st !! path = Some (Document data) →
  (∀ kvs, data ≠ PDict kvs) →
  (__init__ now path st).1 = Raise AttributeError.
Proof.
  intros H Hdata. unfold __init__, load_tasks, bind, write_self, read_self,
    path_exists, json_load, lift.
  cbn. rewrite H. rewrite bool_decide_eq_true_2 by (by eexists).
  cbn. rewrite H.
  destruct data; try done. by destruct (Hdata kvs).
Qed.

(** What [__init__] does with a file that holds a JSON object. *)
Lemma init_object now path st kvs :
  disk st !! path = Some (Document (PDict kvs)) →
  match Py.iter (from_option (λ v, v) (PList []) (Py.assoc "tasks" kvs)) with
  | Raise e => (__init__ now path st).1 = Raise e
  | Ok items =>
      match decode now items with
      | Raise e => (__init__ now path st).1 = Raise e
      | Ok objs =>
          __init__ now path st
          = (Ok tt,
             mkState (mk path (seq (length (heap st)) (length objs))
                        (from_option (λ v, v) (PInt 1) (Py.assoc "next_id" kvs)))
               (heap st ++ objs) (disk st))
      end
  end.
Proof.
  intros H.
  set (nid := from_option (λ v, v) (PInt 1) (Py.assoc "next_id" kvs)).
  set (st0 := mkState (mk path [] (PInt 1)) (heap st) (disk st)).
  set (st1 := mkState (mk path [] nid) (heap st) (disk st)).
  assert (Hexists : path_exists path st0 = (Ok true, st0)).
  { unfold path_exists. cbn. rewrite H.
    by rewrite bool_decide_eq_true_2 by (by eexists). }
  assert (Hload : json_load path st0 = (Ok (PDict kvs), st0)).
  { unfold json_load. cbn. by rewrite H. }
  unfold __init__.
  rewrite (bind_ok (write_self (mk path [] (PInt 1))) _ st tt st0 eq_refl).
  unfold load_tasks. rewrite (bind_ok read_self _ st0 (self st0) st0 eq_refl).
  cbn [self filename tasks next_id st0].
  rewrite (bind_ok _ _ _ _ _ Hexists).
  rewrite (bind_ok _ _ _ _ _ Hload).
  rewrite (bind_ok (lift (Py.get (PDict kvs) "next_id" (PInt 1))) _ st0 nid st0 eq_refl).
  rewrite (bind_ok (write_self (mk path [] nid)) _ st0 tt st1 eq_refl).
  rewrite (bind_ok (lift (Py.get (PDict kvs) "tasks" (PList []))) _ st1
             (from_option (λ v, v) (PList []) (Py.assoc "tasks" kvs)) st1 eq_refl).
  destruct (Py.iter _) as [items|e] eqn:Hiter.
  - rewrite (bind_ok (lift (Ok items)) _ st1 items st1 eq_refl).
    pose proof (for_each_from_dict now items (mk path [] nid) (heap st) (disk st))
      as Hloop.
    destruct (decode now items) as [objs|e].
    + rewrite (bind_ok _ _ _ _ _ Hloop). reflexivity.
    + destruct Hloop as [h' Hloop]. by rewrite (bind_raise _ _ _ _ _ Hloop).
  - by rewrite (bind_raise (lift (Raise e)) _ st1 e st1 eq_refl).
Qed.

(** ** Initialize *)

(** C5 as stated fails: a file that holds the JSON object [{}] is not of
    the expected structure, and [__init__] accepts it. *)
Lemma init_accepts_object_without_fields :
  ¬ (∀ now path st content,
       disk st !! path = Some content →
       Format.expected_structure content = false →
       ∃ e, (__init__ now path st).1 = Raise e).
Proof.
  intros Hclaim.
  destruct (Hclaim sample_now "tasks.json"
              (mkState (mk "" [] PNone) [] (<["tasks.json" := Document (PDict [])]> ∅))
              (Document (PDict [])) (lookup_insert_eq _ _ _) eq_refl) as [e He].
  discriminate He.
Qed.

(** The store a file holding [{"next_id": 7}] gives: counter 7, no task. *)
Example init_object_without_tasks :
  __init__ sample_now "tasks.json"
    (mkState (mk "" [] PNone) []
       (<["tasks.json" := Document (PDict [("next_id", PInt 7)])]> ∅))
  = (Ok tt,
     mkState (mk "tasks.json" [] (PInt 7)) []
       (<["tasks.json" := Document (PDict [("next_id", PInt 7)])]> ∅)).
Proof. reflexivity. Qed.

(** C5, amended: with no file the store starts empty with counter 1;
    [__init__] raises when the file is not JSON, when the document is not
    an object, when [tasks] cannot be iterated, and when a record of
    [tasks] is not an object holding the nine fields; an object without
    [next_id] or without [tasks] is accepted, with 1 and no task in their
    place, and records that decode are loaded in order. *)
Theorem init_outcomes now path st :
  (disk st !! path = None →
     __init__ now path st
     = (Ok tt, mkState (mk path [] (PInt 1)) (heap st) (disk st)))
  ∧ (disk st !! path = Some Unparsable →
       (__init__ now path st).1 = Raise JSONDecodeError)
  ∧ (∀ data, disk st !! path = Some (Document data) →
       (∀ kvs, data ≠ PDict kvs) →
       (__init__ now path st).1 = Raise AttributeError)
  ∧ (∀ kvs v e, disk st !! path = Some (Document (PDict kvs)) →
       Py.assoc "tasks" kvs = Some v → Py.iter v = Raise e →
       (__init__ now path st).1 = Raise e)
  ∧ (∀ kvs recs d, disk st !! path = Some (Document (PDict kvs)) →
       Py.assoc "tasks" kvs = Some (PList recs) →
       d ∈ recs → Format.has_required_fields d = false →
       ∃ e, (__init__ now path st).1 = Raise e)
  ∧ (∀ kvs, disk st !! path = Some (Document (PDict kvs)) →
       Py.assoc "tasks" kvs = None →
       __init__ now path st
       = (Ok tt,
          mkState (mk path [] (from_option (λ v, v) (PInt 1) (Py.assoc "next_id" kvs)))
            (heap st) (disk st)))
  ∧ (∀ kvs recs objs, disk st !! path = Some (Document (PDict kvs)) →
       Py.assoc "tasks" kvs = Some (PList recs) →
       decode now recs = Ok objs →
       __init__ now path st
       = (Ok tt,
          mkState (mk path (seq (length (heap st)) (length objs))
                     (from_option (λ v, v) (PInt 1) (Py.assoc "next_id" kvs)))
            (heap st ++ objs) (disk st))).
Proof.
  split; [apply init_absent|].
  split; [apply init_unparsable|].
  split; [apply init_not_object|].
  split; [|split; [|split]].
  - intros kvs v e H Htasks Hiter.
    pose proof (init_object now path st kvs H) as Hinit.
    rewrite Htasks in Hinit. simpl in Hinit. by rewrite Hiter in Hinit.
  - intros kvs recs d H Htasks Hin Hbad.
    pose proof (init_object now path st kvs H) as Hinit.
    rewrite Htasks in Hinit. simpl in Hinit.
    destruct (decode_raises now recs d Hin Hbad) as [e He].
    rewrite He in Hinit. by exists e.
  - intros kvs H Htasks.
    pose proof (init_object now path st kvs H) as Hinit.
    rewrite Htasks in Hinit. simpl in Hinit. by rewrite app_nil_r in Hinit.
  - intros kvs recs objs H Htasks Hdec.
    pose proof (init_object now path st kvs H) as Hinit.
    rewrite Htasks in Hinit. simpl in Hinit. by rewrite Hdec in Hinit.
Qed.

Lemma init_outcomes_witness :
  __init__ sample_now "tasks.json" sample_store
  = (Ok tt, mkState (mk "tasks.json" [] (PInt 1)) (heap sample_store)
              (disk sample_store)).
Proof.
  exact (proj1 (init_outcomes sample_now "tasks.json" sample_store) eq_refl).
Defined.

(** ** Round trip *)

Lemma lookup_appended (h objs : list Task.t) :
  map (λ l, (h ++ objs) !! l) (seq (length h) (length objs)) = Some <$> objs.
Proof.
  revert h. induction objs as [|obj objs IH]; intros h; [done|].
  cbn [length seq map fmap list_fmap].
  f_equal.
  - by rewrite list_lookup_middle.
  - specialize (IH (h ++ [obj])). rewrite length_app in IH. simpl in IH.
    rewrite Nat.add_1_r, <- app_assoc in IH. exact IH.
Qed.

(** C3: a task survives [to_dict] followed by [from_dict] with every
    field intact, and a store that is saved and constructed again from
    its file, in any process, holds equal tasks in the same order and the
    same counter. *)
Theorem round_trip now task st me0 h0 (Hlive : live st) :
  Task.from_dict now (Task.to_dict task) = Ok task
  ∧ ∃ st1 st2,
      save_tasks st = (Ok tt, st1)
      ∧ __init__ now (filename (self st)) (mkState me0 h0 (disk st1)) = (Ok tt, st2)
      ∧ contents st2 = contents st
      ∧ next_id (self st2) = next_id (self st)
      ∧ filename (self st2) = filename (self st)
      ∧ live st2.
Proof.
  split; [apply from_dict_to_dict|].
  set (objs := objects (heap st) (tasks (self st))).
  set (d1 := <[filename (self st) := Document (snapshot (self st) (heap st))]> (disk st)).
  pose proof (init_object now (filename (self st)) (mkState me0 h0 d1)
                [("next_id", next_id (self st));
                 ("tasks", PList (map Task.to_dict objs))]) as Hinit.
  cbn [disk heap] in Hinit.
  specialize (Hinit (lookup_insert_eq _ _ _)).
  change (Py.assoc "tasks" _) with (Some (PList (map Task.to_dict objs))) in Hinit.
  change (Py.assoc "next_id" _) with (Some (next_id (self st))) in Hinit.
  cbn [from_option Py.iter] in Hinit. rewrite decode_to_dict in Hinit.
  eexists _, _. split; [by apply save_tasks_live|].
  split; [exact Hinit|].
  split.
  { unfold contents at 1. cbn [self tasks heap].
    rewrite lookup_appended. by rewrite contents_objects. }
  split; [done|]. split; [done|].
  unfold live. cbn [self tasks heap]. apply Forall_forall.
  intros l Hl. apply elem_of_seq in Hl. rewrite length_app. lia.
Qed.

Lemma round_trip_witness :
  Task.from_dict sample_now (Task.to_dict (Task.create sample_now (PStr "Buy milk")))
  = Ok (Task.create sample_now (PStr "Buy milk"))
  ∧ ∃ st1 st2,
      save_tasks sample_store = (Ok tt, st1)
      ∧ __init__ sample_now "tasks.json"
          (mkState (mk "" [] PNone) [] (disk st1)) = (Ok tt, st2)
      ∧ contents st2 = contents sample_store
      ∧ next_id (self st2) = PInt 4
      ∧ filename (self st2) = "tasks.json"
      ∧ live st2.
Proof.
  exact (round_trip sample_now (Task.create sample_now (PStr "Buy milk"))
           sample_store (mk "" [] PNone) [] sample_store_live).
Defined.

(** * Further properties *)

(** ** Lookup, invariants and durability *)

(** X1: [get_task] scans the list in order: it answers [None] when no
    listed task carries the ID and the first listed task that carries it
    otherwise, and it leaves the store as it was.  One of the two cases
    applies to every live store. *)
Theorem get_task_outcomes task_id st (Hlive : live st) :
  (none_with_id (heap st) task_id (tasks (self st)) →
     get_task task_id st = (Ok None, st))
  ∧ (∀ i l, first_with_id (heap st) task_id (tasks (self st)) i l →
       get_task task_id st = (Ok (Some l), st))
  ∧ (none_with_id (heap st) task_id (tasks (self st))
     ∨ ∃ i l, first_with_id (heap st) task_id (tasks (self st)) i l).
Proof.
  split; [apply get_task_none|].
  split; [intros i l; apply get_task_first|].
  destruct (get_task_from_live task_id (tasks (self st)) st Hlive)
    as [[Hnone _] | (i & l & Hfirst & _)]; [by left | right; eauto].
Qed.

Lemma well_formed_live st : well_formed st → live st.
Proof.
  intros (n & _ & Hids & _). unfold live. eapply Forall_impl; [exact Hids|].
  simpl. intros l (obj & k & Hobj & _). by eapply lookup_lt_Some.
Qed.

(** The scan for the ID [n] in a list whose objects other than [task] do
    not carry it, after [task] was stamped with it. *)
Lemma get_task_from_stamped n task obj' ts st :
  heap st !! task = Some obj' →
  Py.eq_int (Task.id obj') n = true →
  Forall (λ l, l = task ∨ ∃ obj, heap st !! l = Some obj
                                 ∧ Py.eq_int (Task.id obj) n = false) ts →
  get_task_from n (ts ++ [task]) st = (Ok (Some task), st).
Proof.
  intros Hobj' Heq. induction 1 as [|l ts Hl _ IH]; cbn [app get_task_from].
  - rewrite (bind_ok _ _ _ _ _ (deref_ok _ _ _ Hobj')). by rewrite Heq.
  - destruct Hl as [-> | (obj & Hobj & Hne)].
    + rewrite (bind_ok _ _ _ _ _ (deref_ok _ _ _ Hobj')). by rewrite Heq.
    + rewrite (bind_ok _ _ _ _ _ (deref_ok _ _ _ Hobj)). by rewrite Hne.
Qed.

(** X2: after [add_task] on a store where no listed task carries the
    counter's value, [get_task] with the returned ID finds the task just
    added, stamped with that ID. *)
Theorem add_then_get task st n obj
  (Hlive : live st)
  (Hcounter : next_id (self st) = PInt n)
  (Hobj : heap st !! task = Some obj)
  (Hfree : none_with_id (heap st) n (tasks (self st))) :
  ∃ st', add_task task st = (Ok (PInt n), st')
         ∧ get_task n st' = (Ok (Some task), st')
         ∧ heap st' !! task = Some (Task.set_id (PInt n) obj).
Proof.
  pose proof (lookup_lt_Some _ _ _ Hobj) as Hlt.
  eexists. split; [exact (add_task_live task st n obj Hlive Hcounter Hobj)|].
  split.
  - unfold get_task. erewrite bind_ok; [|reflexivity]. cbn [self tasks].
    apply (get_task_from_stamped n task (Task.set_id (PInt n) obj)).
    + cbn [heap]. by apply list_lookup_insert_eq.
    + simpl. apply Z.eqb_refl.
    + cbn [heap]. eapply Forall_impl; [exact Hfree|]. simpl.
      intros l (o & Ho & Hne). destruct (decide (l = task)) as [->|Hneq]; [by left|].
      right. exists o. split; [|done]. by rewrite list_lookup_insert_ne.
  - cbn [heap]. by apply list_lookup_insert_eq.
Qed.

Lemma ids_below_none st n :
  ids_below st n → none_with_id (heap st) n (tasks (self st)).
Proof.
  intros H. eapply Forall_impl; [exact H|]. simpl.
  intros l (obj & k & Hobj & Hid & Hk). exists obj. split; [done|].
  rewrite Hid. simpl. apply Z.eqb_neq. lia.
Qed.

Lemma id_at_insert_same h l obj obj' l' :
  h !! l = Some obj → Task.id obj' = Task.id obj →
  id_at (<[l := obj']> h) l' = id_at h l'.
Proof.
  intros Hobj Hid. unfold id_at, loc. destruct (decide (l' = l)) as [->|Hne].
  - rewrite list_lookup_insert_eq by (by eapply lookup_lt_Some).
    rewrite Hobj. simpl. by rewrite Hid.
  - by rewrite list_lookup_insert_ne.
Qed.

Lemma well_formed_add task st obj :
  well_formed st → heap st !! task = Some obj → task ∉ tasks (self st) →
  well_formed (add_task task st).2.
Proof.
  intros Hwf Hobj Hnew. pose proof (well_formed_live _ Hwf) as Hlive.
  destruct Hwf as (n & Hn & Hids & Hdup). unfold ids_below in Hids.
  pose proof (lookup_lt_Some _ _ _ Hobj) as Hlt.
  rewrite (add_task_live task st n obj Hlive Hn Hobj). cbn [snd].
  exists (n + 1)%Z. split; [done|].
  assert (Hold : ∀ l, l ∈ tasks (self st) →
            <[task := Task.set_id (PInt n) obj]> (heap st) !! l = heap st !! l).
  { intros l Hl. apply list_lookup_insert_ne. intros ->. done. }
  split.
  - unfold ids_below. cbn [self tasks heap]. apply Forall_app. split.
    + rewrite Forall_forall. intros l Hl.
      rewrite Forall_forall in Hids. destruct (Hids l Hl) as (o & k & Ho & Hid & Hk).
      exists o, k. rewrite (Hold l Hl). repeat split; [done | done | lia].
    + constructor; [|constructor]. exists (Task.set_id (PInt n) obj), n.
      rewrite list_lookup_insert_eq by done. repeat split. lia.
  - cbn [self tasks heap]. rewrite map_app. apply NoDup_app.
    split; [|split].
    + erewrite map_ext_in; [exact Hdup|]. intros l Hl%list_elem_of_In.
      unfold id_at. by rewrite (Hold l Hl).
    + intros x Hx Hx'. apply list_elem_of_In, in_map_iff in Hx as (l & <- & Hl).
      apply list_elem_of_In in Hl.
      simpl in Hx'. apply list_elem_of_singleton in Hx'.
      unfold id_at in Hx'. rewrite (Hold l Hl) in Hx'.
      rewrite list_lookup_insert_eq in Hx' by done. simpl in Hx'.
      rewrite Forall_forall in Hids. destruct (Hids l Hl) as (o & k & Ho & Hid & Hk).
      rewrite Ho in Hx'. simpl in Hx'. rewrite Hid in Hx'. injection Hx' as ->. lia.
    + simpl. apply NoDup_singleton.
Qed.

Lemma well_formed_delete task_id st :
  well_formed st → well_formed (delete_task task_id st).2.
Proof.
  intros Hwf. pose proof (well_formed_live _ Hwf) as Hlive.
  destruct (get_task_from_live task_id (tasks (self st)) st Hlive)
    as [[Hnone _] | (i & l & Hfirst & _)].
  - by rewrite (delete_task_absent _ _ Hnone).
  - rewrite (delete_task_present _ _ i l Hlive Hfirst). cbn [snd].
    destruct Hwf as (n & Hn & Hids & Hdup). exists n. split; [done|]. split.
    + unfold ids_below. cbn [self tasks heap]. by apply Forall_delete.
    + cbn [self tasks heap].
      change (map (id_at (heap st)) (delete i (tasks (self st))))
        with (id_at (heap st) <$> delete i (tasks (self st))).
      rewrite list_fmap_delete. eapply sublist_NoDup; [exact Hdup|].
      apply sublist_delete.
Qed.

Lemma well_formed_complete now task_id st :
  well_formed st → well_formed (complete_task now task_id st).2.
Proof.
  intros Hwf. pose proof (well_formed_live _ Hwf) as Hlive.
  destruct (get_task_from_live task_id (tasks (self st)) st Hlive)
    as [[Hnone _] | (i & l & Hfirst & _)].
  - by rewrite (complete_task_absent _ _ _ Hnone).
  - pose proof Hfirst as (_ & (obj & Hobj & _) & _).
    rewrite (complete_task_present now _ _ i l obj Hlive Hfirst Hobj). cbn [snd].
    destruct Hwf as (n & Hn & Hids & Hdup). exists n. split; [done|]. split.
    + unfold ids_below. cbn [self tasks heap]. eapply Forall_impl; [exact Hids|].
      simpl. intros l' (o & k & Ho & Hid & Hk).
      destruct (decide (l' = l)) as [->|Hne].
      * exists (Task.mark_complete now obj), k.
        rewrite list_lookup_insert_eq by (by eapply lookup_lt_Some).
        assert (o = obj) as -> by congruence. done.
      * exists o, k. by rewrite list_lookup_insert_ne.
    + cbn [self tasks heap]. erewrite map_ext; [exact Hdup|].
      intros l'. by apply (id_at_insert_same _ _ obj).
Qed.

(** X3: a store whose counter is an integer above every listed ID and
    whose listed IDs are pairwise distinct stays so under [add_task] of an
    object not yet listed, under [delete_task] and under [complete_task];
    such a store is live. *)
Theorem well_formed_preserved st (Hwf : well_formed st) :
  live st
  ∧ (∀ task obj, heap st !! task = Some obj → task ∉ tasks (self st) →
       well_formed (add_task task st).2)
  ∧ (∀ task_id, well_formed (delete_task task_id st).2)
  ∧ (∀ now task_id, well_formed (complete_task now task_id st).2).
Proof.
  split; [by apply well_formed_live|].
  split; [intros task obj; by apply well_formed_add|].
  split; [intros task_id; by apply well_formed_delete|].
  intros now task_id; by apply well_formed_complete.
Qed.

Lemma id_at_lookup (h : list Task.t) (l : loc) obj :
  h !! l = Some obj → id_at h l = Some (Task.id obj).
Proof. intros H. unfold id_at, loc in *. by rewrite H. Qed.

(** X4: on such a store [delete_task] returns, and afterwards
    [get_task] with the same ID finds nothing. *)
Theorem delete_then_get task_id st (Hwf : well_formed st) :
  ∃ r st', delete_task task_id st = (Ok r, st')
           ∧ get_task task_id st' = (Ok None, st')
           ∧ well_formed st'.
Proof.
  pose proof (well_formed_live _ Hwf) as Hlive.
  pose proof (well_formed_delete task_id st Hwf) as Hwf'.
  destruct (get_task_from_live task_id (tasks (self st)) st Hlive)
    as [[Hnone _] | (i & l & Hfirst & _)].
  - rewrite (delete_task_absent _ _ Hnone) in *.
    exists false, st. split; [done|]. split; [by apply get_task_none | done].
  - rewrite (delete_task_present _ _ i l Hlive Hfirst) in *. cbn [snd] in Hwf'.
    eexists true, _. split; [reflexivity|]. split; [|exact Hwf'].
    apply get_task_none. cbn [self tasks heap].
    destruct Hwf as (n & Hn & Hids & Hdup). unfold ids_below in Hids.
    destruct Hfirst as (Hi & (obj & Hobj & Heq) & _).
    rewrite Forall_lookup in Hids.
    destruct (Hids i l Hi) as (o & k & Ho & Hid & _).
    assert (o = obj) as -> by congruence.
    rewrite Hid in Heq. simpl in Heq. apply Z.eqb_eq in Heq. subst k.
    unfold none_with_id. apply Forall_lookup. intros j' l' Hl'.
    assert (∃ j, j ≠ i ∧ tasks (self st) !! j = Some l') as (j & Hji & Hj).
    { destruct (decide (j' < i)).
      - exists j'. split; [lia|]. by rewrite list_lookup_delete_lt in Hl'.
      - exists (S j'). split; [lia|]. rewrite list_lookup_delete_ge in Hl' by lia. done. }
    destruct (Hids j l' Hj) as (o' & k' & Ho' & Hid' & _).
    exists o'. split; [done|]. rewrite Hid'. simpl. apply Z.eqb_neq. intros ->.
    apply Hji. eapply (NoDup_lookup _ j i); [exact Hdup| |].
    + change (map ?f ?l) with (f <$> l).
      rewrite list_lookup_fmap, Hj. simpl. rewrite (id_at_lookup _ _ _ Ho').
      by rewrite Hid'.
    + change (map ?f ?l) with (f <$> l).
      rewrite list_lookup_fmap, Hi. simpl. rewrite (id_at_lookup _ _ _ Hobj).
      by rewrite Hid.
Qed.

(** X5: [complete_task] with an ID no task carries answers [False] and
    changes nothing; with an ID that is carried it answers [True], marks
    the first task carrying it, leaves every other object, the list and
    the counter as they were, and writes the file. *)
Theorem complete_task_outcomes now task_id st (Hlive : live st) :
  (none_with_id (heap st) task_id (tasks (self st)) →
     complete_task now task_id st = (Ok false, st))
  ∧ (∀ i l obj, first_with_id (heap st) task_id (tasks (self st)) i l →
       heap st !! l = Some obj →
       ∃ st', complete_task now task_id st = (Ok true, st')
              ∧ self st' = self st
              ∧ heap st' !! l = Some (Task.mark_complete now obj)
              ∧ (∀ l', l' ≠ l → heap st' !! l' = heap st !! l')
              ∧ length (heap st') = length (heap st)
              ∧ disk st' = <[filename (self st) :=
                              Document (snapshot (self st') (heap st'))]> (disk st)).
Proof.
  split; [apply complete_task_absent|].
  intros i l obj Hfirst Hobj.
  eexists. split; [exact (complete_task_present now _ _ i l obj Hlive Hfirst Hobj)|].
  cbn [self heap disk]. split; [done|]. split.
  { apply list_lookup_insert_eq. by eapply lookup_lt_Some. }
  split; [intros l' Hne; by apply list_lookup_insert_ne|].
  split; [by rewrite length_insert | done].
Qed.

Lemma reload_snapshot now me h d me0 h0 :
  Forall (λ l, l < length h) (tasks me) →
  d !! filename me = Some (Document (snapshot me h)) →
  __init__ now (filename me) (mkState me0 h0 d)
  = (Ok tt,
     mkState (mk (filename me) (seq (length h0) (length (objects h (tasks me))))
                (next_id me))
       (h0 ++ objects h (tasks me)) d).
Proof.
  intros Hlive Hfile.
  pose proof (init_object now (filename me) (mkState me0 h0 d)
                [("next_id", next_id me);
                 ("tasks", PList (map Task.to_dict (objects h (tasks me))))] Hfile)
    as Hinit.
  change (Py.assoc "tasks" _)
    with (Some (PList (map Task.to_dict (objects h (tasks me))))) in Hinit.
  change (Py.assoc "next_id" _) with (Some (next_id me)) in Hinit.
  cbn [from_option Py.iter] in Hinit. by rewrite decode_to_dict in Hinit.
Qed.

Lemma in_sync_durable st : live st → in_sync st → durable st.
Proof.
  intros Hlive Hsync now me0 h0.
  eexists. split; [exact (reload_snapshot now (self st) (heap st) (disk st) me0 h0 Hlive Hsync)|].
  split; [|done].
  unfold contents at 1. cbn [self tasks heap].
  rewrite lookup_appended. by rewrite contents_objects.
Qed.

Lemma contents_alloc st task :
  live st →
  contents (mkState (self st) (heap st ++ [task]) (disk st)) = contents st.
Proof.
  intros Hlive. unfold contents. cbn [self heap]. apply map_ext_in.
  intros l Hl%list_elem_of_In. unfold live in Hlive. rewrite Forall_forall in Hlive.
  apply lookup_app_l. by apply Hlive.
Qed.

(** One call keeps the disk able to reproduce the store, writes no file
    but the backing one and keeps the file name. *)
Lemma perform_durable c st n :
  live st →
  next_id (self st) = PInt n →
  adds_live [c] (length (heap st)) = true →
  durable st →
  durable (perform c st).2
  ∧ filename (self (perform c st).2) = filename (self st)
  ∧ ∀ p, p ≠ filename (self st) → disk (perform c st).2 !! p = disk st !! p.
Proof.
  intros Hlive Hn Hc Hdur.
  destruct c as [now a b c d e | task | task_id | now task_id]; simpl in *.
  - split; [|done]. intros now' me0 h0. destruct (Hdur now' me0 h0) as (st2 & E & Hc2 & Hn2).
    exists st2. split; [exact E|]. split; [|done].
    by rewrite contents_alloc.
  - rewrite andb_true_r in Hc. apply Nat.ltb_lt in Hc.
    destruct (lookup_live _ _ Hc) as [obj Hobj].
    rewrite (add_task_live task st n obj Hlive Hn Hobj). cbn [snd self filename disk].
    split; [|split; [done | intros p Hp; by rewrite lookup_insert_ne]].
    apply in_sync_durable.
    + unfold live. cbn [self tasks heap]. rewrite length_insert.
      apply Forall_app. split; [exact Hlive | by constructor].
    + unfold in_sync. cbn [self filename disk heap]. apply lookup_insert_eq.
  - destruct (get_task_from_live task_id (tasks (self st)) st Hlive)
      as [[Hnone _] | (i & l & Hfirst & _)].
    + by rewrite (delete_task_absent _ _ Hnone).
    + rewrite (delete_task_present _ _ i l Hlive Hfirst). cbn [snd self filename disk].
      split; [|split; [done | intros p Hp; by rewrite lookup_insert_ne]].
      apply in_sync_durable.
      * unfold live. cbn [self tasks heap]. by apply Forall_delete.
      * unfold in_sync. cbn [self filename disk heap]. apply lookup_insert_eq.
  - destruct (get_task_from_live task_id (tasks (self st)) st Hlive)
      as [[Hnone _] | (i & l & Hfirst & _)].
    + by rewrite (complete_task_absent _ _ _ Hnone).
    + pose proof Hfirst as (_ & (obj & Hobj & _) & _).
      rewrite (complete_task_present now _ _ i l obj Hlive Hfirst Hobj).
      cbn [snd self filename disk].
      split; [|split; [done | intros p Hp; by rewrite lookup_insert_ne]].
      apply in_sync_durable.
      * unfold live. cbn [self tasks heap]. by rewrite length_insert.
      * unfold in_sync. cbn [self filename disk heap]. apply lookup_insert_eq.
Qed.

(** X6: when the disk reproduces the store before a session of calls,
    it reproduces it after: constructing a manager from the file again
    gives the same tasks in the same order and the same counter.  The
    session keeps the file name and writes no other file. *)
Theorem session_durable cs st n
  (Hlive : live st)
  (Hcounter : next_id (self st) = PInt n)
  (Hadds : adds_live cs (length (heap st)) = true)
  (Hdurable : durable st) :
  durable (session cs st).2
  ∧ live (session cs st).2
  ∧ filename (self (session cs st).2) = filename (self st)
  ∧ ∀ p, p ≠ filename (self st) → disk (session cs st).2 !! p = disk st !! p.
Proof.
  revert st n Hlive Hcounter Hadds Hdurable.
  induction cs as [|c cs IH]; intros st n Hlive Hn Hcs Hdur; [done|].
  assert (Hc : adds_live [c] (length (heap st)) = true).
  { destruct c; simpl in *; try done.
    apply andb_true_iff in Hcs as [-> _]. done. }
  destruct (perform_live c st n Hlive Hn Hc) as (st' & E & Hlive' & Hn' & Hlen').
  destruct (perform_durable c st n Hlive Hn Hc Hdur) as (Hdur' & Hfn' & Hother').
  rewrite E in Hdur', Hfn', Hother'. cbn [snd] in Hdur', Hfn', Hother'.
  assert (Hcs' : adds_live cs (length (heap st')) = true).
  { rewrite Hlen'. destruct c; simpl in *; try done.
    by apply andb_true_iff in Hcs as [_ ?]. }
  specialize (IH st' _ Hlive' Hn' Hcs' Hdur').
  cbn [session]. rewrite E.
  destruct (session cs st') as [ids' st'']. cbn [snd] in *.
  destruct IH as (H1 & H2 & H3 & H4).
  split; [done|]. split; [done|]. split; [congruence|].
  intros p Hp. rewrite H4 by congruence. by apply Hother'.
Qed.

Lemma fresh_store_durable : durable fresh_store.
Proof.
  intros now me0 h0. eexists. split; [by apply init_absent | done].
Qed.

Lemma session_durable_witness :
  durable (session fresh_session fresh_store).2
  ∧ live (session fresh_session fresh_store).2
  ∧ filename (self (session fresh_session fresh_store).2) = "tasks.json"
  ∧ ∀ p, p ≠ "tasks.json" →
         disk (session fresh_session fresh_store).2 !! p = disk fresh_store !! p.
Proof.
  apply (session_durable fresh_session fresh_store 1).
  - constructor.
  - reflexivity.
  - reflexivity.
  - exact fresh_store_durable.
Defined.

(** ** Records and the overdue test *)

(** X7: [from_dict] on a dict raises [KeyError] for the first key that
    is missing, in the order title, description, priority, category,
    deadline, id, completed, created_at, completed_at; with all nine
    present it returns a task whose [to_dict] holds the dict's value at
    each of them.  On anything but a dict it raises [TypeError].  The
    clock does not influence the result. *)
Theorem from_dict_outcomes now data :
  match data with
  | PDict kvs =>
      match List.find (lacks kvs) access_order with
      | Some key => Task.from_dict now data = Raise (KeyError key)
      | None =>
          ∃ task, Task.from_dict now data = Ok task
                  ∧ ∀ key, key ∈ Format.required_keys →
                      Py.subscript (Task.to_dict task) key = Py.subscript data key
      end
  | _ => Task.from_dict now data = Raise TypeError
  end
  ∧ ∀ now', Task.from_dict now' data = Task.from_dict now data.
Proof.
  split.
  - destruct data as [| | | | |kvs]; try reflexivity.
    unfold Task.from_dict, Py.subscript, access_order, lacks, res_bind.
    cbn [List.find].
    destruct (Py.assoc "title" kvs) as [v1|] eqn:E1; cbn; [|done].
    destruct (Py.assoc "description" kvs) as [v2|] eqn:E2; cbn; [|done].
    destruct (Py.assoc "priority" kvs) as [v3|] eqn:E3; cbn; [|done].
    destruct (Py.assoc "category" kvs) as [v4|] eqn:E4; cbn; [|done].
    destruct (Py.assoc "deadline" kvs) as [v5|] eqn:E5; cbn; [|done].
    destruct (Py.assoc "id" kvs) as [v6|] eqn:E6; cbn; [|done].
    destruct (Py.assoc "completed" kvs) as [v7|] eqn:E7; cbn; [|done].
    destruct (Py.assoc "created_at" kvs) as [v8|] eqn:E8; cbn; [|done].
    destruct (Py.assoc "completed_at" kvs) as [v9|] eqn:E9; cbn; [|done].
    eexists. split; [reflexivity|].
    intros key Hkey. unfold Format.required_keys in Hkey.
    repeat (apply elem_of_cons in Hkey as [-> | Hkey];
            [cbn; by rewrite ?E1, ?E2, ?E3, ?E4, ?E5, ?E6, ?E7, ?E8, ?E9|]).
    by apply elem_of_nil in Hkey.
  - intros now'. destruct data; reflexivity.
Qed.

Lemma truthy_PStr_inv s : Py.truthy (PStr s) = true → s ≠ "".
Proof. simpl. intros H%negb_true_iff. by apply String.eqb_neq. Qed.

Lemma is_overdue_true_iff strptime now task :
  Task.is_overdue strptime now task = Ok true ↔ overdue_at strptime now task.
Proof.
  unfold Task.is_overdue, overdue_at. split.
  - destruct (Py.truthy (Task.deadline task)) eqn:Hd; simpl; [|discriminate].
    destruct (Py.truthy (Task.completed task)) eqn:Hc; simpl; [discriminate|].
    destruct (Task.deadline task) as [| | |s| |] eqn:E; try discriminate.
    destruct (strptime s) as [d|] eqn:Hp; [|discriminate].
    intros [= Hgt]. exists s, d. repeat split; try done. by apply truthy_PStr_inv.
  - intros (s & d & -> & Hs & -> & -> & ->). by rewrite (truthy_PStr s Hs).
Qed.

Lemma select_state p ts st : (select p ts st).2 = st.
Proof.
  induction ts as [|l ts IH]; [done|]. cbn [select].
  unfold bind at 1. unfold deref. destruct (heap st !! l) as [obj|]; [|done].
  unfold bind at 1. unfold lift. destruct (p obj) as [b|e]; [|done].
  unfold bind. destruct (select p ts st) as [[r|e] st']; simpl in *; by subst.
Qed.




Lemma lex_compare_Gt_trans xs ys zs :
  Datetime.lex_compare xs ys = Gt → Datetime.lex_compare ys zs = Gt →
  Datetime.lex_compare xs zs = Gt.
Proof.
  revert ys zs. induction xs as [|x xs IH]; intros [|y ys] [|z zs]; simpl; try done.
  destruct (Z.compare_spec x y), (Z.compare_spec y z), (Z.compare_spec x z);
    try done; try lia; subst; try lia.
  apply IH.
Qed.

Lemma gt_trans a b c :
  Datetime.gt a b = true → Datetime.gt b c = true → Datetime.gt a c = true.
Proof.
  unfold Datetime.gt. intros Hab Hbc.
  destruct (Datetime.lex_compare (Datetime.fields a) (Datetime.fields b)) eqn:E1;
    try discriminate.
  destruct (Datetime.lex_compare (Datetime.fields b) (Datetime.fields c)) eqn:E2;
    try discriminate.
  by rewrite (lex_compare_Gt_trans _ _ _ E1 E2).
Qed.

(** X9: a task that is overdue stays overdue at every later time, and
    is never overdue once [mark_complete] has run. *)
Theorem overdue_until_completed strptime now1 now2 task
  (Hoverdue : Task.is_overdue strptime now1 task = Ok true)
  (Hlater : Datetime.gt now2 now1 = true) :
  Task.is_overdue strptime now2 task = Ok true
  ∧ ∀ now3 now4 parser,
      Task.is_overdue parser now4 (Task.mark_complete now3 task) = Ok false.
Proof.
  split.
  - apply is_overdue_true_iff in Hoverdue as (s & d & Hd & Hs & Hc & Hp & Hgt).
    apply is_overdue_true_iff. exists s, d. repeat split; try done.
    by apply (gt_trans _ now1).
  - intros now3 now4 parser. unfold Task.is_overdue. simpl. by rewrite andb_false_r.
Qed.

Lemma overdue_until_completed_witness :
  Task.is_overdue Datetime.strptime_ymd (Datetime.mk 2024 4 1 8 0 0 0)
    (Task.__init__ (Datetime.mk 2024 3 1 9 30 0 0) (PStr "Buy milk") (PStr "")
       (PStr "high") (PStr "general") (PStr "2024-03-15"))
  = Ok true.
Proof.
  refine (proj1 (overdue_until_completed Datetime.strptime_ymd
                   (Datetime.mk 2024 3 16 0 0 0 0) (Datetime.mk 2024 4 1 8 0 0 0)
                   _ _ _)); reflexivity.
Defined.

(** ** Adding and starting up *)

(** X10: [add_task] puts the task at the end of the list and stamps it
    with the counter; the tasks listed before keep their place and, when
    the task was not listed yet, their content.  A task that was listed
    already is listed twice and carries the new ID in both places. *)
Theorem add_task_appends task st n obj
  (Hlive : live st)
  (Hcounter : next_id (self st) = PInt n)
  (Hobj : heap st !! task = Some obj) :
  ∃ st', add_task task st = (Ok (PInt n), st')
    ∧ tasks (self st') = tasks (self st) ++ [task]
    ∧ contents st'
      = ((λ l, if decide (l = task) then Some (Task.set_id (PInt n) obj)
               else heap st !! l) <$> tasks (self st))
        ++ [Some (Task.set_id (PInt n) obj)]
    ∧ (task ∉ tasks (self st) →
       contents st' = contents st ++ [Some (Task.set_id (PInt n) obj)]).
Proof.
  pose proof (lookup_lt_Some _ _ _ Hobj) as Hlt.
  eexists. split; [exact (add_task_live task st n obj Hlive Hcounter Hobj)|].
  split; [done|].
  assert (Hstamped : ∀ l, <[task := Task.set_id (PInt n) obj]> (heap st) !! l
                          = if decide (l = task) then Some (Task.set_id (PInt n) obj)
                            else heap st !! l).
  { intros l. destruct (decide (l = task)) as [->|Hne].
    - by apply list_lookup_insert_eq.
    - by apply list_lookup_insert_ne. }
  unfold contents. cbn [self tasks heap]. rewrite map_app. cbn [map].
  rewrite Hstamped, decide_True by done.
  split.
  - f_equal. apply map_ext. intros l. apply Hstamped.
  - intros Hnew. f_equal. apply map_ext_in. intros l Hl%list_elem_of_In.
    rewrite Hstamped. rewrite decide_False; [done|]. by intros ->.
Qed.

Lemma store_ok st l obj task :
  heap st !! l = Some obj →
  store l task st = (Ok tt, mkState (self st) (<[l := task]> (heap st)) (disk st)).
Proof. intros H. unfold store. by rewrite H. Qed.

(** X11: when the counter is not a number, [add_task] raises
    [TypeError] after it has stamped and appended the task and before it
    saves: the store in memory has the task, the disk has not. *)
Theorem add_task_bad_counter task st obj
  (Hcounter : Py.add_one (next_id (self st)) = Raise TypeError)
  (Hobj : heap st !! task = Some obj) :
  add_task task st
  = (Raise TypeError,
     mkState (mk (filename (self st)) (tasks (self st) ++ [task]) (next_id (self st)))
       (<[task := Task.set_id (next_id (self st)) obj]> (heap st))
       (disk st)).
Proof.
  unfold add_task.
  rewrite (bind_ok read_self _ st (self st) st eq_refl).
  rewrite (bind_ok _ _ _ _ _ (deref_ok _ _ _ Hobj)).
  rewrite (bind_ok _ _ _ _ _ (store_ok _ _ _ _ Hobj)).
  unfold bind at 1. unfold write_self at 1. cbn [self heap disk].
  unfold bind at 1. unfold read_self at 1. cbn [self next_id].
  unfold bind at 1. unfold lift at 1. by rewrite Hcounter.
Qed.

Lemma seq_live (h objs : list Task.t) :
  Forall (λ l, l < length (h ++ objs)) (seq (length h) (length objs)).
Proof.
  apply Forall_forall. intros l Hl%elem_of_seq. rewrite length_app. lia.
Qed.

(** X12: a manager constructed without a file gives its first task the
    ID 1; one constructed from a file whose records decode holds those
    records as tasks in order and gives its first new task the file's
    [next_id]. *)
Theorem first_id_after_init now path st :
  (disk st !! path = None →
   ∃ st1, __init__ now path st = (Ok tt, st1)
          ∧ ∀ task obj, heap st1 !! task = Some obj →
              (add_task task st1).1 = Ok (PInt 1))
  ∧ (∀ kvs recs objs n,
       disk st !! path = Some (Document (PDict kvs)) →
       Py.assoc "next_id" kvs = Some (PInt n) →
       Py.assoc "tasks" kvs = Some (PList recs) →
       decode now recs = Ok objs →
       ∃ st1, __init__ now path st = (Ok tt, st1)
              ∧ contents st1 = Some <$> objs
              ∧ ∀ task obj, heap st1 !! task = Some obj →
                  (add_task task st1).1 = Ok (PInt n)).
Proof.
  split.
  - intros Hnone. eexists. split; [by apply init_absent|].
    intros task obj Hobj.
    erewrite add_task_live; [reflexivity| |reflexivity|exact Hobj].
    constructor.
  - intros kvs recs objs n Hfile Hn Htasks Hdec.
    pose proof (init_object now path st kvs Hfile) as Hinit.
    rewrite Htasks, Hn in Hinit. cbn [from_option Py.iter] in Hinit.
    rewrite Hdec in Hinit.
    eexists. split; [exact Hinit|]. split.
    + unfold contents. cbn [self tasks heap]. apply lookup_appended.
    + intros task obj Hobj.
      erewrite add_task_live; [reflexivity| |reflexivity|exact Hobj].
      unfold live. cbn [self tasks heap]. apply seq_live.
Qed.

(** ** Printing a task *)

Lemma append_assoc (a b c : string) : (a +:+ b) +:+ c = a +:+ b +:+ c.
Proof.
  induction a as [|ch a IH]; [done|].
  change (String ch ((a +:+ b) +:+ c) = String ch (a +:+ b +:+ c)). by rewrite IH.
Qed.

Lemma dict_get_hashable d key default :
  Display.hashable key = true → ∃ s, Display.dict_get d key default = Ok s.
Proof. destruct key; simpl; try discriminate; eauto. Qed.

(** X13: [print_task] raises [TypeError] for a priority that is a list
    or a dict, and otherwise raises what [is_overdue] raises, in both
    cases before printing; when [is_overdue] returns it prints one line, or
    five to seven when detailed, and the clock and the deadline's parse
    decide nothing but the suffix [ [OVERDUE]] of the first line. *)
Theorem print_task_outcomes str_ strptime now task detailed :
  (Display.hashable (Task.priority task) = false →
     Display.print_task str_ strptime now task detailed = Raise TypeError)
  ∧ (Display.hashable (Task.priority task) = true →
     ∀ e, Task.is_overdue strptime now task = Raise e →
          Display.print_task str_ strptime now task detailed = Raise e)
  ∧ (Display.hashable (Task.priority task) = true →
     ∃ base rest,
       length rest
       = (if detailed
          then 4 + (if Py.truthy (Task.description task) then 1 else 0)
                 + (if Py.truthy (Task.completed task) then 1 else 0)
          else 0)
       ∧ ∀ parser now' late,
           Task.is_overdue parser now' task = Ok late →
           Display.print_task str_ parser now' task detailed
           = Ok ((base +:+ (if late then " [OVERDUE]" else "")) :: rest)).
Proof.
  unfold Display.print_task. split; [|split].
  - intros Hh. by destruct (Task.priority task).
  - intros Hh e He. destruct (dict_get_hashable Display.priority_symbols _ "→" Hh)
      as [sym ->]. cbn [res_bind]. by rewrite He.
  - intros Hh. destruct (dict_get_hashable Display.priority_symbols _ "→" Hh)
      as [sym ->]. cbn [res_bind].
    eexists _, _. split; [|intros parser now' late ->; cbn [res_bind]].
    2: { f_equal. f_equal. rewrite <- !append_assoc. reflexivity. }
    destruct detailed; [|done].
    destruct (Py.truthy (Task.description task)), (Py.truthy (Task.completed task));
      reflexivity.
Qed.

(** X14: for a completed task with a hashable priority [print_task]
    always prints, and prints the same lines whatever the clock and
    whatever the deadline holds. *)
Theorem print_task_completed str_ task detailed
  (Hdone : Py.truthy (Task.completed task) = true)
  (Hhashable : Display.hashable (Task.priority task) = true) :
  ∃ lines, ∀ strptime now,
    Display.print_task str_ strptime now task detailed = Ok lines.
Proof.
  unfold Display.print_task.
  destruct (dict_get_hashable Display.priority_symbols _ "→" Hhashable) as [sym ->].
  cbn [res_bind]. eexists. intros strptime now.
  assert (Task.is_overdue strptime now task = Ok false) as ->.
  { unfold Task.is_overdue. by rewrite Hdone, andb_false_r. }
  cbn [res_bind]. reflexivity.
Qed.

Lemma print_task_completed_witness :
  ∃ lines, ∀ strptime now,
    Display.print_task Display.str_scalar strptime now
      (sample_task 2 "File taxes" "work" "high" true) true = Ok lines.
Proof.
  exact (print_task_completed Display.str_scalar
           (sample_task 2 "File taxes" "work" "high" true) true eq_refl eq_refl).
Defined.

(** ** Samples *)

Lemma sample_first_with_id_2 :
  first_with_id (heap sample_store) 2 (tasks (self sample_store)) 1 1.
Proof.
  split; [reflexivity|]. split; [eexists; split; reflexivity|].
  intros j l' Hj Hl'. assert (j = 0) as -> by lia. injection Hl' as <-.
  eexists; split; reflexivity.
Qed.

Lemma sample_none_with_id_99 :
  none_with_id (heap sample_store) 99 (tasks (self sample_store)).
Proof. repeat constructor; eexists; (split; reflexivity). Qed.

Lemma sample_store_well_formed : well_formed sample_store.
Proof.
  exists 4%Z. split; [reflexivity|]. split.
  - unfold ids_below. cbn [sample_store self tasks].
    repeat (apply Forall_cons; split;
            [eexists _, _; split; [reflexivity|]; split; [reflexivity | lia]|]).
    apply Forall_nil_2.
  - cbn. repeat (apply NoDup_cons; split; [not_in_list|]). apply NoDup_nil_2.
Qed.

Lemma get_task_outcomes_witness :
  get_task 99 sample_store = (Ok None, sample_store)
  ∧ get_task 2 sample_store = (Ok (Some 1), sample_store).
Proof.
  destruct (get_task_outcomes 99 sample_store sample_store_live) as (Habsent & _ & _).
  destruct (get_task_outcomes 2 sample_store sample_store_live) as (_ & Hpresent & _).
  split; [exact (Habsent sample_none_with_id_99) | exact (Hpresent 1 1 sample_first_with_id_2)].
Defined.

Lemma add_then_get_witness :
  ∃ st', add_task 0 (perform (Delete 1) sample_store).2 = (Ok (PInt 4), st')
         ∧ get_task 4 st' = (Ok (Some 0), st')
         ∧ heap st' !! 0
           = Some (Task.set_id (PInt 4) (sample_task 1 "Buy milk" "home" "high" false)).
Proof.
  apply (add_then_get 0 (perform (Delete 1) sample_store).2 4).
  - repeat constructor.
  - reflexivity.
  - reflexivity.
  - repeat constructor; eexists; (split; reflexivity).
Defined.

Lemma well_formed_preserved_witness :
  live sample_store
  ∧ (∀ task obj, heap sample_store !! task = Some obj →
       task ∉ tasks (self sample_store) →
       well_formed (add_task task sample_store).2)
  ∧ (∀ task_id, well_formed (delete_task task_id sample_store).2)
  ∧ (∀ now task_id, well_formed (complete_task now task_id sample_store).2).
Proof. exact (well_formed_preserved sample_store sample_store_well_formed). Defined.

Lemma delete_then_get_witness :
  ∃ r st', delete_task 2 sample_store = (Ok r, st')
           ∧ get_task 2 st' = (Ok None, st')
           ∧ well_formed st'.
Proof. exact (delete_then_get 2 sample_store sample_store_well_formed). Defined.

Lemma complete_task_outcomes_witness :
  complete_task sample_now 99 sample_store = (Ok false, sample_store).
Proof.
  exact (proj1 (complete_task_outcomes sample_now 99 sample_store sample_store_live)
           sample_none_with_id_99).
Defined.

Lemma dated_store_live : live dated_store.
Proof. repeat constructor. Qed.


Example dated_store_overdue :
  get_overdue_tasks Datetime.strptime_ymd sample_now dated_store = (Ok [0], dated_store).
Proof. reflexivity. Qed.

Lemma add_task_appends_witness :
  ∃ st', add_task 3 dated_store = (Ok (PInt 4), st')
    ∧ tasks (self st') = [0; 1; 2; 3]
    ∧ contents st'
      = contents dated_store
        ++ [Some (Task.set_id (PInt 4) (dated_task 9 (PStr "next week") false))].
Proof.
  destruct (add_task_appends 3 dated_store 4 _ dated_store_live eq_refl eq_refl)
    as (st' & Hadd & Hts & _ & Hnew).
  exists st'. split; [exact Hadd|]. split; [exact Hts|].
  apply Hnew. not_in_list.
Defined.

Lemma add_task_bad_counter_witness :
  (add_task 0 (mkState (mk "tasks.json" [] (PStr "7"))
                 [Task.create sample_now (PStr "Buy milk")] ∅)).1
  = Raise TypeError.
Proof.
  by rewrite (add_task_bad_counter 0
                (mkState (mk "tasks.json" [] (PStr "7"))
                   [Task.create sample_now (PStr "Buy milk")] ∅)
                (Task.create sample_now (PStr "Buy milk")) eq_refl eq_refl).
Defined.

(** ** The menu loop *)

Import Menu.

Lemma and_then_returned {A B} (m : IO A) (k : A → IO B) w a w' :
  m w = (Returned a, w') → and_then m k w = k a w'.
Proof. intros H. unfold and_then. by rewrite H. Qed.

Lemma state_kept_and_then {A B} (m : IO A) (k : A → IO B) :
  state_kept m → (∀ a, state_kept (k a)) → state_kept (and_then m k).
Proof.
  intros Hm Hk w. unfold and_then. specialize (Hm w).
  destruct (m w) as [[a|e| |] w1]; simpl in *; try done.
  by rewrite Hk.
Qed.

Lemma shrinks_and_then {A B} (m : IO A) (k : A → IO B) :
  shrinks m → (∀ a, shrinks (k a)) → shrinks (and_then m k).
Proof.
  intros Hm Hk w. unfold and_then. destruct (Hm w) as [Hfuel Hsuffix].
  destruct (m w) as [[a|e| |] w1]; simpl in *; try done.
  destruct (Hk a w1) as [Hfuel' Hsuffix']. split; [done|]. by etrans.
Qed.

Lemma returns_only_and_then {A B} (m : IO A) (k : A → IO B) Q :
  (∀ a, returns_only (k a) Q) → returns_only (and_then m k) Q.
Proof.
  intros Hk w b w'. unfold and_then.
  destruct (m w) as [[a|e| |] w1]; try discriminate. apply Hk.
Qed.

Lemma state_kept_pure {A} (a : A) : state_kept (pure a).
Proof. by intros w. Qed.

Lemma state_kept_throw {A} e : state_kept (@throw A e).
Proof. by intros w. Qed.

Lemma state_kept_print s : state_kept (print s).
Proof. by intros w. Qed.

Lemma shrinks_pure {A} (a : A) : shrinks (pure a).
Proof. by intros w. Qed.

Lemma shrinks_throw {A} e : shrinks (@throw A e).
Proof. by intros w. Qed.

Lemma shrinks_print s : shrinks (print s).
Proof. by intros w. Qed.

Lemma state_kept_call {A} (m : M A) :
  (∀ st, (m st).2 = st) → state_kept (call m).
Proof.
  intros Hm w. unfold call. specialize (Hm (state w)).
  destruct (m (state w)) as [[a|e] st']; simpl in *; by subst.
Qed.

Lemma shrinks_call {A} (m : M A) : shrinks (call m).
Proof. intros w. unfold call. by destruct (m (state w)) as [[a|e] st']. Qed.

Lemma state_kept_print_lines lines : state_kept (print_lines lines).
Proof.
  induction lines as [|s lines IH]; [apply state_kept_pure|].
  apply state_kept_and_then; [apply state_kept_print | by intros _].
Qed.

Lemma shrinks_print_lines lines : shrinks (print_lines lines).
Proof.
  induction lines as [|s lines IH]; [apply shrinks_pure|].
  apply shrinks_and_then; [apply shrinks_print | by intros _].
Qed.

Lemma state_kept_input prompt : state_kept (input prompt).
Proof. intros w. unfold input. by destruct (stdin w). Qed.

Lemma shrinks_input prompt : shrinks (input prompt).
Proof.
  intros w. unfold input. destruct (stdin w); simpl; [done|].
  split; [done | by apply suffix_cons_r].
Qed.

Lemma deref_state l st : (deref l st).2 = st.
Proof. unfold deref. by destruct (heap st !! l). Qed.

(** A record that decodes has had its [Task] constructed, so a load that
    succeeds takes one reading of the clock for each task loaded. *)
Lemma constructor_args_from_dict now d task :
  Task.from_dict now d = Ok task → constructor_args d = Ok tt.
Proof.
  unfold Task.from_dict, constructor_args.
  repeat match goal with
         | |- context [Py.subscript d ?k] =>
             destruct (Py.subscript d k); cbn [res_bind]; [|discriminate]
         end.
  done.
Qed.

Lemma constructions_decoded now items objs :
  decode now items = Ok objs → constructions now items = length objs.
Proof.
  revert objs. induction items as [|d items IH]; intros objs; cbn [decode constructions].
  - by intros [= <-].
  - destruct (Task.from_dict now d) as [task|e] eqn:E; cbn [res_bind]; [|discriminate].
    rewrite (constructor_args_from_dict _ _ _ E).
    destruct (decode now items) as [rest|e]; cbn [res_bind]; [|discriminate].
    intros [= <-]. simpl. f_equal. by apply IH.
Qed.

Section Loop.

Variable clock : nat → Datetime.t.
Variable strip : string → string.
Variable int_ : string → option Z.
Variable str_ : pyval → string.
Variable strptime : string → option Datetime.t.

Lemma state_kept_datetime_now : state_kept (datetime_now clock).
Proof. by intros w. Qed.

Lemma shrinks_datetime_now : shrinks (datetime_now clock).
Proof. by intros w. Qed.

Lemma state_kept_reading_if taken : state_kept (reading_if clock taken).
Proof. by destruct taken; intros w. Qed.

Lemma shrinks_reading_if taken : shrinks (reading_if clock taken).
Proof. by destruct taken; intros w. Qed.

(** A call that takes no reading gives the same result at every time. *)
Lemma is_overdue_without_reading task now now' :
  reads_clock strptime task = false →
  Task.is_overdue strptime now task = Task.is_overdue strptime now' task.
Proof.
  unfold reads_clock, Task.is_overdue.
  destruct (Py.truthy (Task.deadline task) && negb (Py.truthy (Task.completed task)));
    [|done].
  simpl. destruct (Task.deadline task); try done.
  destruct (strptime s); [|done]. by rewrite bool_decide_eq_true_2 by eauto.
Qed.

Lemma print_task_without_reading task detailed now now' :
  Display.hashable (Task.priority task) && reads_clock strptime task = false →
  Display.print_task str_ strptime now task detailed
  = Display.print_task str_ strptime now' task detailed.
Proof.
  intros H. unfold Display.print_task.
  destruct (Display.hashable (Task.priority task)) eqn:Eh.
  - simpl in H. by rewrite (is_overdue_without_reading task now now' H).
  - unfold Display.dict_get. by destruct (Task.priority task).
Qed.

Lemma state_kept_show_task detailed l :
  state_kept (show_task clock str_ strptime detailed l).
Proof.
  unfold show_task. apply state_kept_and_then.
  - apply state_kept_call. intros st. apply deref_state.
  - intros obj. apply state_kept_and_then; [apply state_kept_reading_if|]. intros now.
    destruct (Display.print_task _ _ _ _ _);
      [apply state_kept_print_lines | apply state_kept_throw].
Qed.

Lemma shrinks_show_task detailed l :
  shrinks (show_task clock str_ strptime detailed l).
Proof.
  unfold show_task. apply shrinks_and_then; [apply shrinks_call|].
  intros obj. apply shrinks_and_then; [apply shrinks_reading_if|]. intros now.
  destruct (Display.print_task _ _ _ _ _);
    [apply shrinks_print_lines | apply shrinks_throw].
Qed.

Lemma state_kept_for_each_io {A} (f : A → IO unit) xs :
  (∀ x, state_kept (f x)) → state_kept (for_each_io f xs).
Proof.
  intros Hf. induction xs as [|x xs IH]; [apply state_kept_pure|].
  apply state_kept_and_then; [apply Hf | by intros _].
Qed.

Lemma shrinks_for_each_io {A} (f : A → IO unit) xs :
  (∀ x, shrinks (f x)) → shrinks (for_each_io f xs).
Proof.
  intros Hf. induction xs as [|x xs IH]; [apply shrinks_pure|].
  apply shrinks_and_then; [apply Hf | by intros _].
Qed.

Lemma state_kept_show_all ts message :
  state_kept (show_all clock str_ strptime ts message).
Proof.
  destruct ts; [apply state_kept_print|].
  apply state_kept_for_each_io. apply state_kept_show_task.
Qed.

Lemma shrinks_show_all ts message :
  shrinks (show_all clock str_ strptime ts message).
Proof.
  destruct ts; [apply shrinks_print|].
  apply shrinks_for_each_io. apply shrinks_show_task.
Qed.

Lemma state_kept_overdue_scan ts : state_kept (overdue_scan clock strptime ts).
Proof.
  induction ts as [|l ts IH]; [apply state_kept_pure|]. cbn [overdue_scan].
  apply state_kept_and_then.
  - apply state_kept_call. intros st. apply deref_state.
  - intros obj. apply state_kept_and_then; [apply state_kept_reading_if|]. intros now.
    destruct (Task.is_overdue _ _ _); [|apply state_kept_throw].
    apply state_kept_and_then; [exact IH | intros ?; apply state_kept_pure].
Qed.

Lemma shrinks_overdue_scan ts : shrinks (overdue_scan clock strptime ts).
Proof.
  induction ts as [|l ts IH]; [apply shrinks_pure|]. cbn [overdue_scan].
  apply shrinks_and_then; [apply shrinks_call|].
  intros obj. apply shrinks_and_then; [apply shrinks_reading_if|]. intros now.
  destruct (Task.is_overdue _ _ _); [|apply shrinks_throw].
  apply shrinks_and_then; [exact IH | intros ?; apply shrinks_pure].
Qed.

Lemma shrinks_dispatch choice :
  shrinks (dispatch clock strip int_ str_ strptime choice).
Proof.
  unfold dispatch.
  repeat match goal with
         | |- context [String.eqb choice ?c] => destruct (String.eqb choice c)
         end;
  repeat first
    [ apply shrinks_pure | apply shrinks_throw | apply shrinks_print
    | apply shrinks_datetime_now | apply shrinks_reading_if
    | apply shrinks_input | apply shrinks_call | apply shrinks_show_all
    | apply shrinks_show_task | apply shrinks_overdue_scan
    | apply shrinks_and_then; [|intros ?]
    | match goal with |- shrinks (match ?x with _ => _ end) => destruct x end ].
Qed.

Lemma returns_only_dispatch choice :
  returns_only (dispatch clock strip int_ str_ strptime choice)
    (λ continue, continue = false → choice = "9").
Proof.
  unfold dispatch.
  repeat match goal with
         | |- context [String.eqb choice ?c] =>
             destruct (String.eqb choice c) eqn:?
         end;
  repeat first
    [ apply returns_only_and_then; intros ?
    | match goal with |- returns_only (match ?x with _ => _ end) _ => destruct x end ];
  try (intros ? ? ? [= <- _]; done);
  try (intros ? ? ?; discriminate).
  intros ? ? ? [= <- _] _. by apply String.eqb_eq.
Qed.

(** X15: a turn of the menu with a choice other than 1, 6 and 7 leaves
    the manager, the task objects and the disk as they were, however it
    ends; so do the choices 6 and 7 when the line typed for the ID is no
    integer, which ends the turn with [ValueError]. *)
Theorem read_only_choices choice w :
  (choice ≠ "1" → choice ≠ "6" → choice ≠ "7" →
   state (dispatch clock strip int_ str_ strptime choice w).2 = state w)
  ∧ (∀ line rest, (choice = "6" ∨ choice = "7") →
       stdin w = line :: rest → int_ line = None →
       (dispatch clock strip int_ str_ strptime choice w).1 = Raised ValueError
       ∧ state (dispatch clock strip int_ str_ strptime choice w).2 = state w).
Proof.
  split.
  - intros H1 H6 H7. revert w. change (state_kept (dispatch clock strip int_ str_ strptime choice)).
    unfold dispatch.
    destruct (String.eqb choice "1") eqn:E1; [by apply String.eqb_eq in E1|].
    destruct (String.eqb choice "6") eqn:E6; [by apply String.eqb_eq in E6|].
    destruct (String.eqb choice "7") eqn:E7; [by apply String.eqb_eq in E7|].
    repeat match goal with
           | |- context [String.eqb choice ?c] => destruct (String.eqb choice c)
           end;
    repeat first
      [ apply state_kept_pure | apply state_kept_throw | apply state_kept_print
      | apply state_kept_datetime_now | apply state_kept_reading_if
      | apply state_kept_input | apply state_kept_show_all
      | apply state_kept_show_task | apply state_kept_overdue_scan
      | apply state_kept_call; intros ?;
          first [ reflexivity | apply select_state | apply get_task_state
                | unfold get_pending_tasks, get_completed_tasks, bind, read_self;
                  apply select_state ]
      | apply state_kept_and_then; [|intros ?]
      | match goal with |- state_kept (match ?x with _ => _ end) => destruct x end ].
  - intros line rest Hchoice Hstdin Hint. unfold dispatch.
    destruct Hchoice as [-> | ->]; cbn [String.eqb Ascii.eqb Bool.eqb];
      unfold and_then, input; rewrite Hstdin, Hint; done.
Qed.

Lemma print_lines_run lines w :
  print_lines lines w
  = (Returned tt,
     mkWorld (state w) (stdin w) (stdout w ++ ((λ s, s +:+ newline) <$> lines)) (ticks w)).
Proof.
  revert w. induction lines as [|s lines IH]; intros w.
  - simpl. unfold pure. rewrite app_nil_r. by destruct w.
  - cbn [print_lines]. rewrite (and_then_returned (print s) _ w tt _ eq_refl).
    rewrite IH. cbn [state stdin stdout ticks fmap list_fmap].
    by rewrite <- app_assoc.
Qed.

(** A turn that returns has read its choice, leaves an end part of the
    other lines, and asks to stop only for the choice 9. *)
Lemma iteration_step w continue w' :
  iteration clock strip int_ str_ strptime w = (Returned continue, w') →
  ∃ line rest, stdin w = line :: rest
               ∧ stdin w' `suffix_of` rest
               ∧ (continue = false → strip line = "9").
Proof.
  unfold iteration. rewrite (and_then_returned _ _ _ _ _ (print_lines_run menu w)).
  unfold and_then at 1. unfold input at 1. cbn [stdin state stdout ticks].
  destruct (stdin w) as [|line rest]; [discriminate|].
  intros Hrun. exists line, rest. split; [done|]. split.
  - pose proof (shrinks_dispatch (strip line)
                  (mkWorld (state w) rest
                     ((stdout w ++ ((λ s, s +:+ newline) <$> menu))
                      ++ [newline +:+ "Enter choice: "]) (ticks w))) as [_ Hsuffix].
    by rewrite Hrun in Hsuffix.
  - by apply (returns_only_dispatch (strip line) _ _ _ Hrun).
Qed.

Lemma iteration_fuel w : (iteration clock strip int_ str_ strptime w).1 ≠ OutOfFuel.
Proof.
  unfold iteration. rewrite (and_then_returned _ _ _ _ _ (print_lines_run menu w)).
  apply (shrinks_and_then _ _ (shrinks_input _) (λ c, shrinks_dispatch (strip c))).
Qed.

(** The loop ends within its fuel, returns only after the choice 9, and
    more fuel changes nothing. *)
Lemma main_loop_ends fuel w (Hfuel : length (stdin w) < fuel) :
  (main_loop clock strip int_ str_ strptime fuel w).1 ≠ OutOfFuel
  ∧ ((main_loop clock strip int_ str_ strptime fuel w).1 = Returned tt →
     ∃ line, line ∈ stdin w ∧ strip line = "9")
  ∧ ∀ fuel', length (stdin w) < fuel' →
      main_loop clock strip int_ str_ strptime fuel' w
      = main_loop clock strip int_ str_ strptime fuel w.
Proof.
  revert w Hfuel. induction fuel as [|fuel IH]; intros w Hfuel; [lia|].
  cbn [main_loop]. unfold and_then.
  pose proof (iteration_fuel w) as Hnofuel.
  pose proof (iteration_step w) as Hstep.
  assert (Hmore : ∀ fuel', length (stdin w) < fuel' →
            main_loop clock strip int_ str_ strptime fuel' w
            = match iteration clock strip int_ str_ strptime w with
              | (Returned true, w1) => main_loop clock strip int_ str_ strptime fuel w1
              | (Returned false, w1) => (Returned tt, w1)
              | (Raised e, w1) => (Raised e, w1)
              | (EOFError, w1) => (EOFError, w1)
              | (OutOfFuel, w1) => (OutOfFuel, w1)
              end).
  { intros [|fuel'] Hfuel'; [lia|]. cbn [main_loop]. unfold and_then.
    destruct (iteration clock strip int_ str_ strptime w) as [[[|]|e| |] w1];
      try done.
    destruct (Hstep true w1 eq_refl) as (line & rest & Hstdin & Hsuffix & _).
    apply suffix_length in Hsuffix. rewrite Hstdin in Hfuel, Hfuel'. simpl in *.
    destruct (IH w1 ltac:(lia)) as (_ & _ & Hsame). apply Hsame. lia. }
  destruct (iteration clock strip int_ str_ strptime w) as [[[|]|e| |] w1];
    cbn [fst] in *; try done.
  - destruct (Hstep true w1 eq_refl) as (line & rest & Hstdin & Hsuffix & _).
    pose proof (suffix_length _ _ Hsuffix) as Hlen.
    rewrite Hstdin in Hfuel. simpl in Hfuel.
    destruct (IH w1 ltac:(lia)) as (H1 & H2 & _).
    split; [done|]. split; [|exact Hmore].
    intros Hret. destruct (H2 Hret) as (l9 & Hin & H9). exists l9. split; [|done].
    rewrite Hstdin. apply elem_of_cons. right.
    destruct Hsuffix as [pre ->]. apply elem_of_app. by right.
  - destruct (Hstep false w1 eq_refl) as (line & rest & Hstdin & _ & H9).
    split; [done|]. split; [|exact Hmore].
    intros _. exists line. split; [rewrite Hstdin; apply elem_of_cons; by left | by apply H9].
Qed.

(** X17: choice 1 on a live store with an integer counter reads five
    lines, appends the task they describe with the counter as its ID,
    advances the counter and reports the ID; a blank priority, category
    or deadline becomes ["medium"], ["general"] or [None], never the empty
    string. *)
Theorem menu_add w n title description priority category deadline rest
  (Hlive : live (state w))
  (Hcounter : next_id (self (state w)) = PInt n)
  (Hstdin : stdin w = title :: description :: priority :: category :: deadline :: rest) :
  let task :=
    Task.__init__ (clock (ticks w)) (PStr (strip title)) (PStr (strip description))
      (PStr (or_default (strip priority) "medium"))
      (PStr (or_default (strip category) "general"))
      (or_none (strip deadline)) in
  ∃ w', dispatch clock strip int_ str_ strptime "1" w = (Returned true, w')
        ∧ stdin w' = rest
        ∧ contents (state w') = contents (state w) ++ [Some (Task.set_id (PInt n) task)]
        ∧ next_id (self (state w')) = PInt (n + 1)
        ∧ last (stdout w') = Some ("Task added with ID: " +:+ str_ (PInt n) +:+ newline)
        ∧ Task.priority task ≠ PStr ""
        ∧ Task.category task ≠ PStr ""
        ∧ Task.deadline task ≠ PStr "".
Proof.
  intros task. destruct w as [st i o t]. cbn [state stdin ticks] in *. subst i.
  set (st1 := mkState (self st) (heap st ++ [task]) (disk st)).
  assert (Hlive1 : live st1).
  { unfold live in *. cbn [st1 self heap]. eapply Forall_impl; [exact Hlive|].
    simpl. intros l Hl. rewrite length_app. simpl. lia. }
  assert (Hobj : heap st1 !! length (heap st) = Some task).
  { cbn [st1 heap]. by apply list_lookup_middle. }
  pose proof (add_task_live (length (heap st)) st1 n task Hlive1 Hcounter Hobj) as Hadd.
  cbn zeta in Hadd.
  eexists. split.
  { unfold dispatch. cbn [String.eqb Ascii.eqb Bool.eqb].
    do 5 (erewrite (and_then_returned (input _)); [|reflexivity]).
    erewrite (and_then_returned (datetime_now clock)); [|reflexivity].
    cbn [ticks].
    erewrite (and_then_returned (call (alloc _))); [|reflexivity].
    cbn [state stdin stdout ticks]. fold task. fold st1.
    erewrite (and_then_returned (call (add_task _))); cycle 1.
    { unfold call. cbn [state]. rewrite Hadd. reflexivity. }
    erewrite (and_then_returned (print _)); [|reflexivity]. reflexivity. }
  cbn [state stdin stdout ticks self next_id]. split; [done|]. split.
  { unfold contents. cbn [self tasks heap st1]. rewrite map_app. cbn [map]. f_equal.
    - apply map_ext_in. intros l Hl%list_elem_of_In.
      unfold live in Hlive. rewrite Forall_forall in Hlive. specialize (Hlive l Hl).
      rewrite list_lookup_insert_ne by lia. by apply lookup_app_l.
    - f_equal. apply list_lookup_insert_eq. rewrite length_app. simpl. lia. }
  split; [done|]. split; [by rewrite last_snoc|].
  unfold task, or_default, or_none. cbn [Task.__init__ Task.priority Task.category Task.deadline].
  repeat split.
  - destruct (String.eqb (strip priority) "") eqn:E; [done|].
    intros [= H]. rewrite H in E. done.
  - destruct (String.eqb (strip category) "") eqn:E; [done|].
    intros [= H]. rewrite H in E. done.
  - destruct (String.eqb (strip deadline) "") eqn:E; [done|].
    intros [= H]. rewrite H in E. done.
Qed.

(** A constructor that returns has read the clock once for each task it
    loaded. *)
Lemma construct_manager_readings w st' :
  TaskManager.__init__ (clock (ticks w)) "tasks.json" (state w) = (Ok tt, st') →
  construct_manager clock w
  = (Returned tt,
     mkWorld st' (stdin w) (stdout w) (ticks w + length (tasks (self st')))).
Proof.
  intros Hinit. unfold construct_manager, call. cbn [state stdin stdout ticks].
  rewrite Hinit. do 3 f_equal. unfold readings_of_load.
  destruct (disk (state w) !! "tasks.json") as [[|data]|] eqn:Hfile.
  - pose proof (init_unparsable (clock (ticks w)) _ _ Hfile) as H.
    rewrite Hinit in H. discriminate H.
  - destruct data as [| | | | |kvs];
      try (pose proof (init_not_object (clock (ticks w)) _ _ _ Hfile ltac:(done)) as H;
           rewrite Hinit in H; discriminate H).
    pose proof (init_object (clock (ticks w)) _ _ _ Hfile) as H.
    cbn [Py.get res_bind].
    destruct (Py.iter _) as [items|e]; [|rewrite Hinit in H; discriminate H].
    destruct (decode (clock (ticks w)) items) as [objs|e] eqn:Hdecode;
      [|rewrite Hinit in H; discriminate H].
    rewrite Hinit in H. injection H as ->. cbn [self tasks].
    rewrite length_seq. by apply constructions_decoded.
  - rewrite (init_absent _ _ _ Hfile) in Hinit. by injection Hinit as <-.
Qed.

(** X16: [main] never exhausts the fuel it takes, and more fuel gives
    the same run; it returns only after a typed line that strips to 9;
    when the constructor of the manager raises, [main] raises the same
    exception having printed and read nothing. *)
Theorem main_ends w :
  (main clock strip int_ str_ strptime w).1 ≠ OutOfFuel
  ∧ ((main clock strip int_ str_ strptime w).1 = Returned tt →
     ∃ line, line ∈ stdin w ∧ strip line = "9")
  ∧ (∀ e, (TaskManager.__init__ (clock (ticks w)) "tasks.json" (state w)).1 = Raise e →
       (main clock strip int_ str_ strptime w).1 = Raised e
       ∧ stdout (main clock strip int_ str_ strptime w).2 = stdout w
       ∧ stdin (main clock strip int_ str_ strptime w).2 = stdin w)
  ∧ ∀ fuel, length (stdin w) < fuel →
      main clock strip int_ str_ strptime w
      = (io; construct_manager clock in
         main_loop clock strip int_ str_ strptime fuel) w.
Proof.
  unfold main, and_then, construct_manager, call. cbn [state stdin stdout ticks].
  destruct (TaskManager.__init__ (clock (ticks w)) "tasks.json" (state w))
    as [[[]|e] st1]; cbn [fst snd stdin stdout].
  - match goal with |- context [main_loop _ _ _ _ _ _ ?w1] =>
      destruct (main_loop_ends (S (length (stdin w))) w1 ltac:(simpl; lia))
        as (H1 & H2 & H3) end.
    cbn [stdin] in *. split; [exact H1|]. split; [exact H2|].
    split; [intros e [=]|].
    intros fuel Hfuel. symmetry. by apply H3.
  - split; [done|]. split; [discriminate|]. split; [|done].
    by intros e' [= <-].
Qed.

End Loop.

Lemma menu_add_witness :
  ∃ w', dispatch sample_clock strip_spaces int_digits Display.str_scalar
          Datetime.strptime_ymd "1"
          (mkWorld sample_store ["Pay rent"; ""; ""; " home "; ""; "9"] [] 0)
        = (Returned true, w')
        ∧ stdin w' = ["9"]
        ∧ contents (state w')
          = contents sample_store
            ++ [Some (Task.set_id (PInt 4)
                        (Task.__init__ (sample_clock 0) (PStr "Pay rent") (PStr "")
                           (PStr "medium") (PStr "home") PNone))]
        ∧ next_id (self (state w')) = PInt 5.
Proof.
  destruct (menu_add sample_clock strip_spaces int_digits Display.str_scalar
              Datetime.strptime_ymd
              (mkWorld sample_store ["Pay rent"; ""; ""; " home "; ""; "9"] [] 0)
              4 "Pay rent" "" "" " home " "" ["9"] sample_store_live eq_refl eq_refl)
    as (w' & Hrun & Hstdin & Hcontents & Hnext & _).
  exists w'. repeat split; assumption.
Defined.

(** A first run of the program: a task is added, listed and completed,
    the overdue list is empty, and the text typed for an ID that is no
    number ends the program with [ValueError], the last line unread.  The
    clock is read twice: by the constructor of the task and by
    [mark_complete]. *)
Example first_run_outcome :
  (sample_main first_run).1 = Raised ValueError
  ∧ stdin (sample_main first_run).2 = ["never read"]
  ∧ contents (state (sample_main first_run).2)
    = [Some (Task.mk (PInt 1) (PStr "Buy milk") (PStr "") (PStr "high")
               (PStr "general") (PBool true) (PStr "2024-03-15 12:00:00") PNone
               (PStr "2024-03-15 12:00:01"))]
  ∧ in_sync (state (sample_main first_run).2)
  ∧ ticks (sample_main first_run).2 = 2.
Proof. split; [|split; [|split; [|split]]]; vm_compute; reflexivity. Qed.

(** A later run: loading the two records takes two readings of the
    clock, completing a task that is not there takes none, and the task
    that is completed gets the third reading as its time of completion;
    the program returns after the choice 9. *)
Example later_run_outcome :
  (sample_main later_run).1 = Returned tt
  ∧ stdin (sample_main later_run).2 = ["never read"]
  ∧ map (option_map Task.completed_at) (contents (state (sample_main later_run).2))
    = [Some PNone; Some (PStr "2024-03-15 12:00:02")]
  ∧ ticks (sample_main later_run).2 = 3.
Proof. split; [|split; [|split]]; vm_compute; reflexivity. Qed.
